(** * Thermo_PID: the discrete PID controller and its retuning loop

    A shallow embedding of [src/main/pid_tuner.py] (class [PID]), of the
    control part of [src/main/main.py] ([optimize_pid], [pid_cost] and the
    body of [real_time_pid_tuning]), and of the classes the loop and the
    test scripts use ([Sensors], [PowerSupply], [LoggerUtility]).

    Numbers.  The Python code computes with [int] and [float]; the
    specification speaks of reals.  In the modules [pid_tuner] and [main]
    numbers are the exact rationals [Q]: every operation of the code ([+],
    [-], [*], [/], [**], [%], [abs], comparisons) is the exact one, and
    equality of numbers is [Qeq] (written [==]).  Module [binary64] has the
    controller and the error history again with binary64 floats and their
    rounded operations; what depends on rounding is settled there.

    Exceptions.  A Python call either returns a value or raises; calls are
    modelled as functions into [outcome], and the objects a call mutates
    ([pid], [error_history], the logger) are threaded explicitly. *)

From Stdlib Require Import String QArith Qround Qabs Lqa ZArith Lia Bool List.
Import ListNotations.
Open Scope Q_scope.

(* ------------------------------------------------------------------ *)
(** ** Python values and outcomes *)

(** The exceptions the modelled code can meet. [OptimizeError] stands for
    any [Exception] raised inside [scipy.optimize.minimize]. *)
Inductive exn : Type :=
| ZeroDivisionError
| TypeError
| KeyboardInterrupt
| OptimizeError (msg : string).

(** [KeyboardInterrupt] derives from [BaseException], the others from
    [Exception]: this is what [except Exception] tests. *)
Definition is_Exception (e : exn) : bool :=
  match e with
  | KeyboardInterrupt => false
  | _ => true
  end.

Inductive outcome (A : Type) : Type :=
| Ok (a : A)
| Raise (e : exn).
Arguments Ok {A} a.
Arguments Raise {A} e.

(** The result of a Python call that may be a number or [None]. *)
Inductive pyval : Type :=
| PyNone
| PyNum (x : Q).

(** [x > y] and [x < y] on numbers. *)
Definition Qgtb (x y : Q) : bool := negb (Qle_bool x y).
Definition Qltb (x y : Q) : bool := negb (Qle_bool y x).

(* ------------------------------------------------------------------ *)
(** ** pid_tuner.py *)

Module pid_tuner.

(** The attributes of a [PID] object, in the order [__init__] sets them. *)
Record PID : Type := mkPID {
  Kp : Q;                (* Proportional gain *)
  Ki : Q;                (* Integral gain *)
  Kd : Q;                (* Derivative gain *)
  Kaw : Q;               (* Anti-windup gain *)
  T_C : Q;               (* Time constant for derivative filtering *)
  T : Q;                 (* Time step *)
  max : Q;               (* Maximum command *)
  min : Q;               (* Minimum command *)
  max_rate : Q;          (* Maximum rate of change of the command *)
  integral : Q;          (* Integral term *)
  err_prev : Q;          (* Previous error *)
  deriv_prev : Q;        (* Previous derivative *)
  command_sat_prev : Q;  (* Previous saturated command *)
  command_prev : Q;      (* Previous command *)
  command_sat : Q        (* Current saturated command *)
}.

(** [PID.__init__]: the nine arguments are stored, the running state is 0. *)
Definition init (Kp Ki Kd Kaw T_C T max min max_rate : Q) : PID :=
  mkPID Kp Ki Kd Kaw T_C T max min max_rate 0 0 0 0 0 0.

(** Attribute assignments [self.f = v]. *)
Definition set_Kp (v : Q) (p : PID) : PID :=
  mkPID v (Ki p) (Kd p) (Kaw p) (T_C p) (T p) (max p) (min p) (max_rate p)
        (integral p) (err_prev p) (deriv_prev p) (command_sat_prev p)
        (command_prev p) (command_sat p).
Definition set_Ki (v : Q) (p : PID) : PID :=
  mkPID (Kp p) v (Kd p) (Kaw p) (T_C p) (T p) (max p) (min p) (max_rate p)
        (integral p) (err_prev p) (deriv_prev p) (command_sat_prev p)
        (command_prev p) (command_sat p).
Definition set_Kd (v : Q) (p : PID) : PID :=
  mkPID (Kp p) (Ki p) v (Kaw p) (T_C p) (T p) (max p) (min p) (max_rate p)
        (integral p) (err_prev p) (deriv_prev p) (command_sat_prev p)
        (command_prev p) (command_sat p).
Definition set_integral (v : Q) (p : PID) : PID :=
  mkPID (Kp p) (Ki p) (Kd p) (Kaw p) (T_C p) (T p) (max p) (min p) (max_rate p)
        v (err_prev p) (deriv_prev p) (command_sat_prev p)
        (command_prev p) (command_sat p).
Definition set_err_prev (v : Q) (p : PID) : PID :=
  mkPID (Kp p) (Ki p) (Kd p) (Kaw p) (T_C p) (T p) (max p) (min p) (max_rate p)
        (integral p) v (deriv_prev p) (command_sat_prev p)
        (command_prev p) (command_sat p).
Definition set_deriv_prev (v : Q) (p : PID) : PID :=
  mkPID (Kp p) (Ki p) (Kd p) (Kaw p) (T_C p) (T p) (max p) (min p) (max_rate p)
        (integral p) (err_prev p) v (command_sat_prev p)
        (command_prev p) (command_sat p).
Definition set_command_sat_prev (v : Q) (p : PID) : PID :=
  mkPID (Kp p) (Ki p) (Kd p) (Kaw p) (T_C p) (T p) (max p) (min p) (max_rate p)
        (integral p) (err_prev p) (deriv_prev p) v
        (command_prev p) (command_sat p).
Definition set_command_prev (v : Q) (p : PID) : PID :=
  mkPID (Kp p) (Ki p) (Kd p) (Kaw p) (T_C p) (T p) (max p) (min p) (max_rate p)
        (integral p) (err_prev p) (deriv_prev p) (command_sat_prev p)
        v (command_sat p).
Definition set_command_sat (v : Q) (p : PID) : PID :=
  mkPID (Kp p) (Ki p) (Kd p) (Kaw p) (T_C p) (T p) (max p) (min p) (max_rate p)
        (integral p) (err_prev p) (deriv_prev p) (command_sat_prev p)
        (command_prev p) v.

(** Lines 52-57 of [Step], "Saturate command". *)
Definition saturate (self : PID) (command : Q) : PID :=
  if Qgtb command (max self) then set_command_sat (max self) self
  else if Qltb command (min self) then set_command_sat (min self) self
  else set_command_sat command self.

(** Lines 60-63 of [Step], "Apply rate limiter". *)
Definition rate_limit (self : PID) : PID :=
  if Qgtb (command_sat self) (command_sat_prev self + max_rate self * T self)
  then set_command_sat (command_sat_prev self + max_rate self * T self) self
  else if Qltb (command_sat self) (command_sat_prev self - max_rate self * T self)
  then set_command_sat (command_sat_prev self - max_rate self * T self) self
  else self.

(** [PID.Step(measurement, setpoint)].  The first component is the object
    after the call.  The division of line 41 raises when [T + T_C] is zero,
    after [integral] has been updated.  The body has no [return] statement,
    so a call that does not raise evaluates to [None]. *)
Definition Step (self : PID) (measurement setpoint : Q) : PID * outcome pyval :=
  (* Calculate error *)
  let err := setpoint - measurement in
  (* Update integral term with anti-windup *)
  let self :=
    set_integral
      (integral self
       + (Ki self * err * T self
          + Kaw self * (command_sat_prev self - command_prev self) * T self))
      self in
  (* Calculate filtered derivative *)
  if Qeq_bool (T self + T_C self) 0 then (self, Raise ZeroDivisionError)
  else
    let deriv_filt :=
      (err - err_prev self + T_C self * deriv_prev self) / (T self + T_C self) in
    let self := set_err_prev err self in
    let self := set_deriv_prev deriv_filt self in
    (* Calculate command using PID equation *)
    let command := Kp self * err + integral self + Kd self * deriv_filt in
    (* Store previous command *)
    let self := set_command_prev command self in
    (* Saturate command *)
    let self := saturate self command in
    (* Apply rate limiter *)
    let self := rate_limit self in
    (* Store previous saturated command *)
    let self := set_command_sat_prev (command_sat self) self in
    (self, Ok PyNone).

End pid_tuner.

(* ------------------------------------------------------------------ *)
(** ** main.py *)

Module main.
Import pid_tuner.

(** Channels for heating and cooling *)
Definition cool_ch : string := "ch1".
Definition heat_ch : string := "ch2".

(** Target setpoint and time interval *)
Definition target_temp : Q := 50.
Definition tuning_interval : Q := 0.5.

(** The module-level controller [pid = PID(Kp=0.5, Ki=0.1, ...)]. *)
Definition pid0 : PID := init 0.5 0.1 0.01 0.01 1 0.1 10 0 0.5.

(** A coefficient vector [[Kp, Ki, Kd]]. *)
Definition gains : Type := (Q * Q * Q)%type.

Definition gains_of (p : PID) : gains := (Kp p, Ki p, Kd p).

(** [pid.Kp, pid.Ki, pid.Kd = coefficients] *)
Definition assign_gains (coefficients : gains) (p : PID) : PID :=
  let '(kp, ki, kd) := coefficients in
  set_Kd kd (set_Ki ki (set_Kp kp p)).

Inductive level : Type := INFO | WARNING | ERROR.

(** The module state the loop works on: the globals [pid] and
    [error_history], the loop variable [coefficients], the records sent to
    the logger [log] and the calls made to [power.set_output] (channel and
    voltage; the current is the constant 2), both oldest first.  The CSV
    writer and the hardware behind [sensors] and [power] are not modelled. *)
Record State : Type := mkState {
  pid : PID;
  error_history : list Q;
  coefficients : gains;
  log : list (level * string);
  actuations : list (string * Q)
}.

Definition set_pid (p : PID) (s : State) : State :=
  mkState p (error_history s) (coefficients s) (log s) (actuations s).
Definition set_error_history (h : list Q) (s : State) : State :=
  mkState (pid s) h (coefficients s) (log s) (actuations s).
Definition set_coefficients (c : gains) (s : State) : State :=
  mkState (pid s) (error_history s) c (log s) (actuations s).
Definition emit (l : level) (msg : string) (s : State) : State :=
  mkState (pid s) (error_history s) (coefficients s) (log s ++ [(l, msg)])
          (actuations s).
Definition set_output (ch : string) (volt : Q) (s : State) : State :=
  mkState (pid s) (error_history s) (coefficients s) (log s)
          (actuations s ++ [(ch, volt)]).

(** A computation on the module state that returns or raises. *)
Definition M (A : Type) : Type := State -> State * outcome A.

Definition ret {A} (a : A) : M A := fun s => (s, Ok a).
Definition raise {A} (e : exn) : M A := fun s => (s, Raise e).
Definition bind {A B} (c : M A) (k : A -> M B) : M B :=
  fun s =>
    match c s with
    | (s', Ok a) => k a s'
    | (s', Raise e) => (s', Raise e)
    end.
Definition modify (f : State -> State) : M unit := fun s => (f s, Ok tt).
Definition lift {A} (o : outcome A) : M A := fun s => (s, o).

Notation "x <- c ;; k" := (bind c (fun x => k))
  (at level 61, c at next level, right associativity).
Notation "c ;;; k" := (bind c (fun _ => k))
  (at level 61, right associativity).

(** *** The external minimizer

    [scipy.optimize.minimize] is not part of the repository.  Whatever it
    does, a terminating call is a finite interaction with the cost function
    it was given: it asks for the cost of a candidate and goes on according
    to the answer, until it returns an [OptimizeResult] (of which the code
    reads [x]; [success] is the flag the library sets to [False] when it did
    not converge) or raises. *)
Inductive minimizer : Type :=
| Result (x : gains) (success : bool)
| Fails (e : exn)
| Evaluate (candidate : gains) (k : Q -> minimizer).

(** [pid_cost(coefficients)], the closure of [optimize_pid] over
    [temperature_history] and [setpoint]; it writes the global [pid]. *)
Definition pid_cost (temperature_history : list Q) (setpoint : Q)
    (coefficients : gains) (p : PID) : PID * Q :=
  let '(Kp, Ki, Kd) := coefficients in
  let p := set_Kp Kp p in
  let p := set_Ki Ki p in
  let p := set_Kd Kd p in
  let total_error :=
    fold_left (fun total_error temp =>
                 let error := setpoint - temp in
                 total_error + error ^ 2)
              temperature_history 0 in
  (p, total_error).

(** Running a minimizer against a cost function that writes [pid]. *)
Fixpoint run_minimizer (cost : gains -> PID -> PID * Q) (m : minimizer)
    (p : PID) : PID * outcome gains :=
  match m with
  | Result x _ => (p, Ok x)
  | Fails e => (p, Raise e)
  | Evaluate c k => let (p', v) := cost c p in run_minimizer cost (k v) p'
  end.

(** The successive values of the [pid] object during that run: one entry
    per cost evaluation, the value of [pid] when the evaluation returns. *)
Fixpoint minimizer_trace (cost : gains -> PID -> PID * Q) (m : minimizer)
    (p : PID) : list PID :=
  match m with
  | Evaluate c k => let (p', v) := cost c p in p' :: minimizer_trace cost (k v) p'
  | _ => []
  end.

Section Loop.

(** The behaviour of [minimize(pid_cost, x0, bounds=[(0, 10)]*3,
    method="L-BFGS-B")] as a function of the seed [x0]. *)
Variable minimize : gains -> minimizer.

(** [optimize_pid(coefficients_initial, temperature_history, setpoint)] *)
Definition optimize_pid (coefficients_initial : gains)
    (temperature_history : list Q) (setpoint : Q) : M gains :=
  fun s =>
    match run_minimizer (pid_cost temperature_history setpoint)
                        (minimize coefficients_initial) (pid s) with
    | (p, Ok x) => (emit INFO "Optimization successful" (set_pid p s), Ok x)
    | (p, Raise e) => (set_pid p s, Raise e)
    end.

(** Lines 135-137: [error_history.append(error)], then [pop(0)] when the
    list has more than 50 entries. *)
Definition append_error (error_history : list Q) (error : Q) : list Q :=
  let error_history := error_history ++ [error] in
  if (50 <? length error_history)%nat then tl error_history
  else error_history.

(** [x % m] for a positive [m]: the remainder has the sign of [m]. *)
Definition pymod (x m : Q) : Q := x - m * inject_Z (Qfloor (x / m)).

(** The condition of line 140. *)
Definition optimization_due (error_history : list Q) (elapsed_time : Q) : bool :=
  (10 <? length error_history)%nat
  && Qltb (pymod elapsed_time 5) tuning_interval.

(** Line 141, "Reconstruct history". *)
Definition reconstruct (error_history : list Q) : list Q :=
  map (fun e => target_temp - e) error_history.

(** Lines 134-143 of the loop body: the history update and the periodic
    optimization. *)
Definition record_and_retune (elapsed_time error : Q) : M unit :=
  modify (fun s => set_error_history (append_error (error_history s) error) s) ;;;
  fun s =>
    if optimization_due (error_history s) elapsed_time then
      (let temperature_history := reconstruct (error_history s) in
       x <- optimize_pid (coefficients s) temperature_history target_temp ;;
       modify (set_coefficients x) ;;;
       modify (fun s => set_pid (assign_gains (coefficients s) (pid s)) s)) s
    else (s, Ok tt).

(** What a pass of the loop has from outside once its sensor read has
    produced a temperature: the clock (line 99), the temperature that
    lines 100-104 yield (the read itself is [daq.read_temperature]), and
    whether the operator interrupts the [sleep] that ends the pass. *)
Record TickInput : Type := mkTickInput {
  elapsed_time : Q;
  current_temp : Q;
  interrupted : bool
}.

(** [v > y] and [abs(v)] where [v] may be [None]. *)
Definition py_gt (v : pyval) (y : Q) : outcome bool :=
  match v with
  | PyNone => Raise TypeError
  | PyNum x => Ok (Qgtb x y)
  end.
Definition py_abs (v : pyval) : outcome Q :=
  match v with
  | PyNone => Raise TypeError
  | PyNum x => Ok (Qabs x)
  end.

(** Lines 108-112: the controller step and the actuator command. *)
Definition actuate (current_temp : Q) : M unit :=
  pid_command <- (fun s =>
                    let (p, r) := Step (pid s) current_temp target_temp in
                    (set_pid p s, r)) ;;
  let output_voltage := pid_command in
  heating <- lift (py_gt output_voltage 0) ;;
  volt <- lift (py_abs output_voltage) ;;
  modify (set_output (if heating : bool then heat_ch else cool_ch) volt).

(** The body of the [try] block from line 105 on (lines 105-145), for a
    pass whose sensor read has produced [current_temp inp].  The call of
    [power.set_output] is recorded and taken to return; the row written to
    the CSV file is left out. *)
Definition tick_body (inp : TickInput) : M unit :=
  let error := target_temp - current_temp inp in
  actuate (current_temp inp) ;;;
  modify (emit INFO "Time, Temp, Setpoint, Command, Voltage, Kp, Ki, Kd, Error") ;;;
  record_and_retune (elapsed_time inp) error ;;;
  if interrupted inp then raise KeyboardInterrupt else ret tt.

(** How a pass of [while True] ends. *)
Inductive status : Type :=
| Running              (* the pass completed; the loop goes on *)
| Stopped              (* [break] *)
| Aborted (e : exn).   (* the exception leaves the loop *)

(** The two [except] clauses of lines 147-152. *)
Definition handle (r : State * outcome unit) : State * status :=
  match r with
  | (s, Ok _) => (s, Running)
  | (s, Raise e) =>
      if is_Exception e
      then (emit ERROR "Error during PID tuning" s, Aborted e)
      else (emit INFO "PID tuning interrupted by user." s, Stopped)
  end.

Definition tick (s : State) (inp : TickInput) : State * status :=
  handle (tick_body inp s).

(** The [while True] loop over the passes the inputs allow. *)
Fixpoint main_loop (s : State) (inputs : list TickInput) : State * status :=
  match inputs with
  | [] => (s, Running)
  | inp :: rest =>
      match tick s inp with
      | (s', Running) => main_loop s' rest
      | r => r
      end
  end.

(** [real_time_pid_tuning]: the loop entered with
    [coefficients = [pid.Kp, pid.Ki, pid.Kd]]. *)
Definition real_time_pid_tuning (s : State) (inputs : list TickInput)
    : State * status :=
  main_loop
    (emit INFO "Real-Time PID Tuning started."
          (set_coefficients (gains_of (pid s)) s))
    inputs.

End Loop.

(** The module state when [real_time_pid_tuning] is first called. *)
Definition start : State :=
  mkState pid0 [] (gains_of pid0) [] [].

End main.

(* ------------------------------------------------------------------ *)
(** ** The controller in use *)

Module usage.
Import pid_tuner main.

(** What the program does with the controller object: it calls [Step], and
    between two calls it may assign the three gains. *)
Inductive call : Type :=
| CallStep (measurement setpoint : Q)
| SetGains (g : gains).

(** The saturated commands a sequence of calls produces, one per [Step]
    call, oldest first.  A call that raises ends the sequence. *)
Fixpoint outputs (p : PID) (calls : list call) : list Q :=
  match calls with
  | [] => []
  | CallStep m sp :: rest =>
      match Step p m sp with
      | (p', Ok _) => command_sat p' :: outputs p' rest
      | (_, Raise _) => []
      end
  | SetGains g :: rest => outputs (assign_gains g p) rest
  end.

(** The number of [Step] calls in a sequence. *)
Fixpoint steps (calls : list call) : nat :=
  match calls with
  | [] => O
  | CallStep _ _ :: rest => S (steps rest)
  | SetGains _ :: rest => steps rest
  end.

(** Every entry of [outs] is within [bound] of the entry before it, the
    first one of [prev]. *)
Fixpoint slew_bounded (bound prev : Q) (outs : list Q) : Prop :=
  match outs with
  | [] => True
  | o :: rest => Qabs (o - prev) <= bound /\ slew_bounded bound o rest
  end.

(** The parameters the data model calls valid. *)
Record valid (p : PID) : Prop := mkValid {
  valid_Kp : 0 <= Kp p;
  valid_Ki : 0 <= Ki p;
  valid_Kd : 0 <= Kd p;
  valid_Kaw : 0 <= Kaw p;
  valid_max_rate : 0 <= max_rate p;
  valid_T : 0 < T p;
  valid_T_C : 0 < T_C p;
  valid_bounds : min p <= max p
}.

(** The controller of the two-tick scenario. *)
Definition scenario : PID := init 1 0 0 0 1 0.1 10 0 0.5.

(** A controller whose output range does not contain 0. *)
Definition offset_range : PID := init 1 0 0 0 1 0.1 10 5 0.5.

(** The cost in the words of the specification: the sum over the
    temperature history of (setpoint - recordedTemperature) squared. *)
Fixpoint sum_squared_error (setpoint : Q) (temperature_history : list Q) : Q :=
  match temperature_history with
  | [] => 0
  | temp :: rest => (setpoint - temp) ^ 2 + sum_squared_error setpoint rest
  end.

(** [error_history] after the loop has appended [errors], one per pass,
    to the empty list it starts from. *)
Definition history_after (errors : list Q) : list Q :=
  fold_left append_error errors [].

(** The same, from the temperatures the passes measured: a pass that
    measures [temp] appends [target_temp - temp] (line 105). *)
Definition history_of_measurements (temps : list Q) : list Q :=
  fold_left (fun h temp => append_error h (target_temp - temp)) temps [].

(** The last [n] entries of a list. *)
Definition lastn {A} (n : nat) (l : list A) : list A :=
  skipn (length l - n) l.

(** The values the global [pid] takes while a pass of the loop is inside
    [optimize_pid]: the pass appends [error] to the history of [s] and
    calls the optimizer on the reconstructed temperatures. *)
Definition pid_during_optimize (minimize : gains -> minimizer) (s : State)
    (error : Q) : list PID :=
  minimizer_trace
    (pid_cost (reconstruct (append_error (error_history s) error)) target_temp)
    (minimize (coefficients s)) (pid s).

(** What that call of the minimizer comes to, with the final [pid]. *)
Definition optimize_result (minimize : gains -> minimizer) (s : State)
    (error : Q) : PID * outcome gains :=
  run_minimizer
    (pid_cost (reconstruct (append_error (error_history s) error)) target_temp)
    (minimize (coefficients s)) (pid s).

(** Minimizers to run the loop against.  [probing] asks for the cost at the
    seed and at the seed moved along each axis, as a minimizer that
    estimates a gradient by finite differences does, and returns the seed;
    [raising] raises at once; [raising_late] raises after one cost
    evaluation; [stalling] returns (9, 9, 9) without having converged. *)
Definition probing (x0 : gains) : minimizer :=
  let '(kp, ki, kd) := x0 in
  let h := 1 # 100000000 in
  Evaluate x0 (fun _ =>
  Evaluate (kp + h, ki, kd) (fun _ =>
  Evaluate (kp, ki + h, kd) (fun _ =>
  Evaluate (kp, ki, kd + h) (fun _ =>
  Result x0 true)))).

Definition raising (x0 : gains) : minimizer :=
  Fails (OptimizeError "bounds").

Definition raising_late (x0 : gains) : minimizer :=
  Evaluate (1, 2, 3) (fun _ => Fails (OptimizeError "line search")).

Definition stalling (x0 : gains) : minimizer :=
  Evaluate x0 (fun _ => Result (9, 9, 9) false).

(** The loop after ten passes that each measured 40 degrees. *)
Definition warm : State :=
  mkState pid0 (repeat 10 10%nat) (gains_of pid0) [] [].

(** The levels of the records a state has logged. *)
Definition levels (s : State) : list level := map fst (log s).

End usage.

(* ------------------------------------------------------------------ *)
(** ** The controller over several calls *)

From Stdlib Require Import Qminmax.

Module dynamics.
Import pid_tuner.

(** The value line 46 of [Step] computes from the state before the call:
    the proportional term, the integral updated by line 38 and the
    derivative term with the filtered derivative of line 41. *)
Definition pid_sum (self : PID) (measurement setpoint : Q) : Q :=
  let err := setpoint - measurement in
  Kp self * err
  + (integral self
     + (Ki self * err * T self
        + Kaw self * (command_sat_prev self - command_prev self) * T self))
  + Kd self
    * ((err - err_prev self + T_C self * deriv_prev self) / (T self + T_C self)).

(** [x] brought into [[lo, hi]]. *)
Definition clamp (lo hi x : Q) : Q := Qmax lo (Qmin hi x).

(** Consecutive calls of [Step] on (measurement, setpoint) pairs; the
    first call that raises ends the sequence. *)
Fixpoint Steps (p : PID) (inputs : list (Q * Q)) : PID * outcome unit :=
  match inputs with
  | [] => (p, Ok tt)
  | (measurement, setpoint) :: rest =>
      match Step p measurement setpoint with
      | (p', Ok _) => Steps p' rest
      | (p', Raise e) => (p', Raise e)
      end
  end.


(** A controller whose running state is all zero, as [__init__] leaves it. *)
Record at_rest (p : PID) : Prop := mkAtRest {
  rest_integral : integral p == 0;
  rest_err_prev : err_prev p == 0;
  rest_deriv_prev : deriv_prev p == 0;
  rest_command_sat_prev : command_sat_prev p == 0;
  rest_command_prev : command_prev p == 0
}.

End dynamics.

(* ------------------------------------------------------------------ *)
(** ** The optimizer seen from the loop *)

Module retuning.
Import main.

(** The sum of the squares of a list of numbers. *)
Fixpoint sum_squares (l : list Q) : Q :=
  match l with
  | [] => 0
  | e :: rest => e ^ 2 + sum_squares rest
  end.

(** What a minimizer comes to when every cost it asks for is [v]. *)
Fixpoint answer (v : Q) (m : minimizer) : outcome gains :=
  match m with
  | Result x _ => Ok x
  | Fails e => Raise e
  | Evaluate _ k => answer v (k v)
  end.

(** The candidates a minimizer asks the cost of, in order, when every
    cost it is told is [v]. *)
Fixpoint asked (v : Q) (m : minimizer) : list gains :=
  match m with
  | Evaluate c k => c :: asked v (k v)
  | _ => []
  end.

(** Lines 105 and 134-143 of a pass: the error is computed from the
    temperature the pass has read, then stored, and the optimization is
    run when it is due. *)
Definition learn (minimize : gains -> minimizer) (inp : TickInput) : M unit :=
  let error := target_temp - current_temp inp in
  record_and_retune minimize (elapsed_time inp) error.

(** [learn] pass after pass; a pass that raises ends the run. *)
Fixpoint learns (minimize : gains -> minimizer) (inputs : list TickInput)
    (s : State) : State * outcome unit :=
  match inputs with
  | [] => (s, Ok tt)
  | inp :: rest =>
      match learn minimize inp s with
      | (s', Ok _) => learns minimize rest s'
      | (s', Raise e) => (s', Raise e)
      end
  end.

End retuning.

(* ------------------------------------------------------------------ *)
(** ** daq/sensors.py *)

Module daq.
Import main.

(** A dictionary key or a subscript: the code uses integers (channel
    numbers) and strings (["temperature"]); an integer never equals a
    string. *)
Inductive key : Type :=
| IntKey (n : Z)
| StrKey (s : string).

Definition key_eqb (a b : key) : bool :=
  match a, b with
  | IntKey x, IntKey y => Z.eqb x y
  | StrKey x, StrKey y => String.eqb x y
  | _, _ => false
  end.

(** The dataclass [Sensor]; the generated [__init__] takes the channel
    and leaves the five readings at their default 0.0. *)
Record Sensor : Type := mkSensor {
  channel : key;
  raw : Q;
  volt : Q;
  res_t : Q;
  tempC : Q;
  tempF : Q
}.

Definition Sensor_init (channel : key) : Sensor := mkSensor channel 0 0 0 0 0.

(** [Sensor.return_values]: the tuple of the five readings. *)
Definition return_values (self : Sensor) : list Q :=
  [raw self; volt self; res_t self; tempC self; tempF self].

(** A [dict] from keys to sensors: the entries in insertion order, one
    per key. *)
Definition dict : Type := list (key * Sensor).

(** [d.get(k)] *)
Fixpoint dict_get (d : dict) (k : key) : option Sensor :=
  match d with
  | [] => None
  | (k', v) :: rest => if key_eqb k' k then Some v else dict_get rest k
  end.

(** [d[k] = v]: the value of an existing key is replaced in place, a new
    key goes to the end. *)
Fixpoint dict_set (d : dict) (k : key) (v : Sensor) : dict :=
  match d with
  | [] => [(k, v)]
  | (k', v') :: rest =>
      if key_eqb k' k then (k', v) :: rest else (k', v') :: dict_set rest k v
  end.

(** A [Sensors] object: the dictionary [sensors] and the records sent to
    its logger. *)
Record Sensors : Type := mkSensors {
  sensors : dict;
  log : list (level * string)
}.

(** [Sensors.__init__(channels)]; [None] stands for the omitted argument. *)
Definition Sensors_init (channels : option (list key)) : Sensors :=
  let channels := match channels with
                  | None => []
                  | Some channels => channels
                  end in
  mkSensors
    (fold_left (fun d channel => dict_set d channel (Sensor_init channel))
               channels [])
    [(INFO, "Sensors initialized with channels"%string)].

(** A call that returns, or ends in [exit()]. *)
Inductive result (A : Type) : Type :=
| Returned (a : A)
| Exited.
Arguments Returned {A} a.
Arguments Exited {A}.

(** [Sensors.get_sensor_data(channel)].  A dataclass instance is true in
    a condition, so [if sensor] tests that the key was found. *)
Definition get_sensor_data (self : Sensors) (channel : key)
    : Sensors * result (list Q) :=
  match dict_get (sensors self) channel with
  | Some sensor => (self, Returned (return_values sensor))
  | None =>
      (mkSensors (sensors self)
                 (log self
                  ++ [(ERROR, "Sensor data requested for invalid channel"%string)]),
       Exited)
  end.

(** How lines 103-104 of main.py end. *)
Inductive reading : Type :=
| Temperature (x : Q)
| ReadExit          (* [exit()] inside [get_sensor_data] *)
| ReadTypeError     (* tuple indices must be integers *)
| ReadIndexError.   (* tuple index out of range *)

(** [t[k]] on a tuple: an integer counts from the front, a negative one
    from the back; a string is a [TypeError]. *)
Definition tuple_getitem (t : list Q) (k : key) : reading :=
  match k with
  | StrKey _ => ReadTypeError
  | IntKey i =>
      let n := Z.of_nat (length t) in
      let j := (if i <? 0 then i + n else i)%Z in
      if ((0 <=? j) && (j <? n))%Z%bool
      then match nth_error t (Z.to_nat j) with
           | Some x => Temperature x
           | None => ReadIndexError
           end
      else ReadIndexError
  end.

(** main.py, lines 103-104:
    [sensor_data = sensors.get_sensor_data("temperature")] and
    [current_temp = sensor_data["temperature"]]. *)
Definition read_temperature (sensors : Sensors) : Sensors * reading :=
  match get_sensor_data sensors (StrKey "temperature") with
  | (s, Exited) => (s, ReadExit)
  | (s, Returned sensor_data) =>
      (s, tuple_getitem sensor_data (StrKey "temperature"))
  end.

End daq.

(* ------------------------------------------------------------------ *)
(** ** power_supply/ps_config.py and power_supply/power_supply_device.py *)

Module power_supply.
Import main.

(** ps_config.py *)
Definition sens_volt : Q := 3.3.
Definition sens_curr : Q := 0.02.

Record PowerSupplyChannel : Type := mkChannel {
  label : string;
  off_command : string;
  on_command : string;
  status_command : string;
  query_command : string
}.

(** The properties [off] and [on]. *)
Definition off (c : PowerSupplyChannel) : string := off_command c.
Definition on (c : PowerSupplyChannel) : string := on_command c.

(** The channels built from the class tuples [CH1], [CH2] and [CH3]. *)
Definition CH1 : PowerSupplyChannel :=
  mkChannel "CH1" ":OUTP CH1,OFF" ":OUTP CH1,ON" ":APPL? CH1" ":OUTP? CH1".
Definition CH2 : PowerSupplyChannel :=
  mkChannel "CH2" ":OUTP CH2,OFF" ":OUTP CH2,ON" ":APPL? CH2" ":OUTP? CH2".
Definition CH3 : PowerSupplyChannel :=
  mkChannel "CH3" ":OUTP CH3,OFF" ":OUTP CH3,ON" ":APPL? CH3" ":OUTP? CH3".

(** What is sent with [ps.write]: a fixed text, or the text
    [f':APPL CHn,{volt},{curr}'], kept as its three parts. *)
Inductive message : Type :=
| Text (s : string)
| Appl (channel : string) (volt curr : Q).

(** An operation on the VISA resource [ps]. *)
Inductive op : Type :=
| Write (m : message)
| Close.

(** The indices 0, 1, 2 of the three-element list [ch_status]. *)
Inductive index : Type := I0 | I1 | I2.

(** A [PowerSupply] object.  [ch_status] is the list [[0, 0, 0]] of
    [__init__], read and written at constant indices only; [io] is the
    sequence of operations the resource has carried out, oldest first. *)
Record PowerSupply : Type := mkPowerSupply {
  ch1 : PowerSupplyChannel;
  ch2 : PowerSupplyChannel;
  ch3 : PowerSupplyChannel;
  ch_status : Z * Z * Z;
  log : list (level * string);
  io : list op
}.

Definition status (self : PowerSupply) (i : index) : Z :=
  let '(a, b, c) := ch_status self in
  match i with I0 => a | I1 => b | I2 => c end.

(** [PowerSupply.__init__], the resource opened. *)
Definition PowerSupply_init : PowerSupply :=
  mkPowerSupply CH1 CH2 CH3 (0, 0, 0)%Z
                [(INFO, "Power Supply Initialized"%string)] [].

(** How a method can stop before its end: an exception of the resource,
    or [SystemExit] from [exit()]. *)
Inductive signal : Type :=
| DeviceError
| SystemExit.

(** A piece of a method: it changes the object and completes ([None]) or
    stops with a signal. *)
Definition action : Type := PowerSupply -> PowerSupply * option signal.

Definition seq_action (a b : action) : action :=
  fun self =>
    match a self with
    | (self', None) => b self'
    | r => r
    end.

Notation "a >> b" := (seq_action a b) (at level 62, left associativity).

Definition when (c : PowerSupply -> bool) (a : action) : action :=
  fun self => if c self then a self else (self, None).

Definition set_status (i : index) (v : Z) : action :=
  fun self =>
    let '(a, b, c) := ch_status self in
    let st := match i with
              | I0 => (v, b, c)
              | I1 => (a, v, c)
              | I2 => (a, b, v)
              end in
    (mkPowerSupply (ch1 self) (ch2 self) (ch3 self) st (log self) (io self),
     None).

Definition emit_record (l : level) (msg : string) (self : PowerSupply)
    : PowerSupply :=
  mkPowerSupply (ch1 self) (ch2 self) (ch3 self) (ch_status self)
                (log self ++ [(l, msg)]) (io self).

Definition log_info (msg : string) : action :=
  fun self => (emit_record INFO msg self, None).
Definition log_error (msg : string) : action :=
  fun self => (emit_record ERROR msg self, None).

Section Device.

(** The resource: whether it carries out an operation, given those it has
    carried out so far.  A refused operation raises. *)
Variable accepts : list op -> op -> bool.

Definition perform (o : op) : action :=
  fun self =>
    if accepts (io self) o
    then (mkPowerSupply (ch1 self) (ch2 self) (ch3 self) (ch_status self)
                        (log self) (io self ++ [o]),
          None)
    else (self, Some DeviceError).

(** [self.ps.write(text)] *)
Definition write (m : message) : action := perform (Write m).

(** [try: body / except Exception as e: self.log.error(e, msg); exit()].
    [SystemExit] is not an [Exception]: it passes through. *)
Definition try_or_exit (body : action) (msg : string) : action :=
  fun self =>
    match body self with
    | (self', Some DeviceError) => (emit_record ERROR msg self', Some SystemExit)
    | r => r
    end.

(** [PowerSupply.turn_off_all] *)
Definition turn_off_all : action :=
  try_or_exit
    ((fun self => write (Text (off (ch1 self))) self)
     >> (fun self => write (Text (off (ch2 self))) self)
     >> (fun self => write (Text (off (ch3 self))) self)
     >> log_info "Turned off all channels")
    "An error occurred while turning off all channels".

(** [PowerSupply.set_output(ch, volt, curr)] *)
Definition set_output (ch : string) (volt curr : Q) : action :=
  try_or_exit
    (if String.eqb ch "ch1" then
       when (fun self => (status self I1 =? 1)%Z)
            ((fun self => write (Text (off (ch2 self))) self)
             >> set_status I1 0)
       >> write (Appl "CH1" volt curr)
       >> when (fun self => (status self I0 =? 0)%Z)
               ((fun self => write (Text (on (ch1 self))) self)
                >> set_status I0 1)
     else if String.eqb ch "ch2" then
       when (fun self => (status self I2 =? 1)%Z)
            ((fun self => write (Text (off (ch3 self))) self)
             >> set_status I2 0)
       >> write (Appl "CH2" volt curr)
       >> when (fun self => (status self I1 =? 0)%Z)
               ((fun self => write (Text (on (ch2 self))) self)
                >> set_status I1 1)
     else if String.eqb ch "ch3" then
       write (Appl "CH3" sens_volt sens_curr)
     else
       log_error "Invalid channel name")
    "An error occurred while setting output".

(** [PowerSupply.end] *)
Definition end_ : action :=
  try_or_exit
    (turn_off_all
     >> perform Close
     >> log_info "Power supply connection closed.")
    "Failed to properly close the power supply connection".

(** The methods a program calls on the object. *)
Inductive call : Type :=
| SetOutput (ch : string) (volt curr : Q)
| TurnOffAll
| End.

Definition do_call (c : call) : action :=
  match c with
  | SetOutput ch volt curr => set_output ch volt curr
  | TurnOffAll => turn_off_all
  | End => end_
  end.

(** The object after a sequence of calls, whichever of them returned or
    exited: the object outlives an [exit()] that a [finally] clause follows
    with another call. *)
Definition after_calls (self : PowerSupply) (calls : list call) : PowerSupply :=
  fold_left (fun self c => fst (do_call c self)) calls self.

End Device.

(** A resource that carries out every operation. *)
Definition reliable : list op -> op -> bool := fun _ _ => true.

(** The last thing a sequence of operations did to the output of a
    channel: [Some true] if it switched it on, [Some false] if it switched
    it off, [None] if it did neither. *)
Definition last_switch (c : PowerSupplyChannel) (ops : list op) : option bool :=
  fold_left
    (fun state o =>
       match o with
       | Write (Text t) =>
           if String.eqb t (on_command c) then Some true
           else if String.eqb t (off_command c) then Some false
           else state
       | _ => state
       end)
    ops None.

(** A call of [set_output]. *)
Definition is_set_output (c : call) : bool :=
  match c with
  | SetOutput _ _ _ => true
  | _ => false
  end.

(** Every entry of [ch_status] is 0 or 1. *)
Definition well_formed (self : PowerSupply) : Prop :=
  forall i, status self i = 0%Z \/ status self i = 1%Z.

(** The object holds the three channels of ps_config.py, and its
    [ch_status] agrees with what the resource was last told: entry 0 is 1
    exactly when the output of CH1 was last switched on, entry 1 likewise
    for CH2, and entry 2 is 0. *)
Record tracks (self : PowerSupply) : Prop := mkTracks {
  tracks_ch1 : ch1 self = CH1;
  tracks_ch2 : ch2 self = CH2;
  tracks_ch3 : ch3 self = CH3;
  tracks_wf : well_formed self;
  tracks_0 : status self I0 = 1%Z <-> last_switch CH1 (io self) = Some true;
  tracks_1 : status self I1 = 1%Z <-> last_switch CH2 (io self) = Some true;
  tracks_2 : status self I2 = 0%Z
}.

End power_supply.

(* ------------------------------------------------------------------ *)
(** ** utils/logging_util.py *)

Module logging_util.

Section Levels.

(** The values given as [level] ([logging.DEBUG], [logging.INFO], ...). *)
Variable Level : Type.

(** A logger of the [logging] module, as far as the code reads and writes
    it: the handlers attached to it (each with the format string of its
    formatter) and its level, [None] for one never set. *)
Record Logger : Type := mkLogger {
  handlers : list string;
  level : option Level
}.

(** The name a logger is kept under: [logging.getLogger] returns the one
    root logger for the empty name and for the name ["root"], and for any
    other name the logger of that name, the same at every call. *)
Definition logger_of (name : string) : string :=
  if String.eqb name "" then "root"%string else name.

(** The loggers of the process, by the name they are kept under; a logger
    not yet asked for has no handler. *)
Definition registry : Type := string -> Logger.

Definition no_loggers : registry := fun _ => mkLogger [] None.

(** [logging.getLogger(name)] *)
Definition getLogger (r : registry) (name : string) : Logger :=
  r (logger_of name).

(** [LoggerUtility._setup_logger(name, level)]; the logger it returns is
    [getLogger name] in the registry it leaves. *)
Definition _setup_logger (name : string) (lvl : Level) (r : registry)
    : registry :=
  let logger := getLogger r name in
  let logger :=
    match handlers logger with
    | [] =>
        mkLogger
          (handlers logger
           ++ ["%(asctime)s - %(name)s - %(levelname)s - %(message)s"%string])
          (level logger)
    | _ :: _ => logger
    end in
  let logger := mkLogger (handlers logger) (Some lvl) in
  fun n => if String.eqb n (logger_of name) then logger else r n.

(** [LoggerUtility(logger_name, level)], once per pair, in order. *)
Definition setup_all (calls : list (string * Level)) (r : registry) : registry :=
  fold_left (fun r call => _setup_logger (fst call) (snd call) r) calls r.

(** The level of the last pair whose name denotes the logger of [name],
    if there is one. *)
Definition last_level (calls : list (string * Level)) (name : string)
    : option Level :=
  fold_left (fun found call =>
               if String.eqb (logger_of name) (logger_of (fst call))
               then Some (snd call) else found)
            calls None.

End Levels.

Arguments mkLogger {Level} handlers level.
Arguments handlers {Level} l.
Arguments level {Level} l.
Arguments no_loggers {Level} _.
Arguments getLogger {Level} r name.
Arguments _setup_logger {Level} name lvl r _.
Arguments setup_all {Level} calls r _.
Arguments last_level {Level} calls name.

End logging_util.

(* ------------------------------------------------------------------ *)
(** ** test_scripts/oscillating_power_test.py *)

Module oscillating_power_test.
Import power_supply.

(** ps_config.py, lines 4-7 *)
Definition heat_volt : Q := 0.
Definition heat_curr : Q := 0.
Definition cool_volt : Q := 0.
Definition cool_curr : Q := 0.

(** Power supply channels *)
Definition cool_ch : string := "ch1".
Definition heat_ch : string := "ch2".

(** How a cycle, or the run of cycles, ends. *)
Inductive ended : Type :=
| Completed
| ValueError    (* [raise ValueError] for a task other than 0 and 1 *)
| Exited.       (* [exit()] inside [set_output] *)

Section Device.

Variable accepts : list op -> op -> bool.

(** [cycle(time_start, writer, task)], as far as the power supply goes.
    The polling loop that follows the [set_output] call reads the module's
    [sensors = Sensors()], whose dictionary is empty: it updates and records
    nothing, and does not touch [power]. *)
Definition cycle (task : Z) (power : PowerSupply) : PowerSupply * ended :=
  if (task =? 0)%Z then
    match set_output accepts cool_ch cool_volt cool_curr power with
    | (power', None) => (power', Completed)
    | (power', Some _) => (power', Exited)
    end
  else if (task =? 1)%Z then
    match set_output accepts heat_ch heat_volt heat_curr power with
    | (power', None) => (power', Completed)
    | (power', Some _) => (power', Exited)
    end
  else (power, ValueError).

(** [oscillate(time_start, writer)] for [num_oscillations] passes of its
    loop: a cooling cycle, then a heating cycle. *)
Fixpoint oscillate (num_oscillations : nat) (power : PowerSupply)
    : PowerSupply * ended :=
  match num_oscillations with
  | O => (power, Completed)
  | S n =>
      match cycle 0 power with
      | (power', Completed) =>
          match cycle 1 power' with
          | (power'', Completed) => oscillate n power''
          | r => r
          end
      | r => r
      end
  end.

End Device.

(** What the resource is sent in the first oscillation, and in each of
    the following ones. *)
Definition first_oscillation : list op :=
  [Write (Appl "CH1" 0 0); Write (Text ":OUTP CH1,ON");
   Write (Appl "CH2" 0 0); Write (Text ":OUTP CH2,ON")].

Definition next_oscillation : list op :=
  [Write (Text ":OUTP CH2,OFF"); Write (Appl "CH1" 0 0);
   Write (Appl "CH2" 0 0); Write (Text ":OUTP CH2,ON")].

End oscillating_power_test.

(* ------------------------------------------------------------------ *)
(** ** The controller and the history in binary64

    The program computes with Python floats.  This module is the same code
    as [pid_tuner.PID] and as lines 105, 135-137 and 141 of main.py, with
    every number a binary64 float and every operation the correctly rounded
    one; it is where statements that depend on rounding are settled. *)

From Stdlib Require Import PrimFloat FloatOps SpecFloat.

Module binary64.
#[local] Set Warnings "-inexact-float".
Local Open Scope float_scope.

Record PID : Type := mkPID {
  Kp : float;
  Ki : float;
  Kd : float;
  Kaw : float;
  T_C : float;
  T : float;
  max : float;
  min : float;
  max_rate : float;
  integral : float;
  err_prev : float;
  deriv_prev : float;
  command_sat_prev : float;
  command_prev : float;
  command_sat : float
}.

(** [PID.__init__] *)
Definition init (Kp Ki Kd Kaw T_C T max min max_rate : float) : PID :=
  mkPID Kp Ki Kd Kaw T_C T max min max_rate 0 0 0 0 0 0.

Definition set_Kp (v : float) (p : PID) : PID :=
  mkPID v (Ki p) (Kd p) (Kaw p) (T_C p) (T p) (max p) (min p) (max_rate p)
        (integral p) (err_prev p) (deriv_prev p) (command_sat_prev p)
        (command_prev p) (command_sat p).
Definition set_Ki (v : float) (p : PID) : PID :=
  mkPID (Kp p) v (Kd p) (Kaw p) (T_C p) (T p) (max p) (min p) (max_rate p)
        (integral p) (err_prev p) (deriv_prev p) (command_sat_prev p)
        (command_prev p) (command_sat p).
Definition set_Kd (v : float) (p : PID) : PID :=
  mkPID (Kp p) (Ki p) v (Kaw p) (T_C p) (T p) (max p) (min p) (max_rate p)
        (integral p) (err_prev p) (deriv_prev p) (command_sat_prev p)
        (command_prev p) (command_sat p).
Definition set_integral (v : float) (p : PID) : PID :=
  mkPID (Kp p) (Ki p) (Kd p) (Kaw p) (T_C p) (T p) (max p) (min p) (max_rate p)
        v (err_prev p) (deriv_prev p) (command_sat_prev p)
        (command_prev p) (command_sat p).
Definition set_err_prev (v : float) (p : PID) : PID :=
  mkPID (Kp p) (Ki p) (Kd p) (Kaw p) (T_C p) (T p) (max p) (min p) (max_rate p)
        (integral p) v (deriv_prev p) (command_sat_prev p)
        (command_prev p) (command_sat p).
Definition set_deriv_prev (v : float) (p : PID) : PID :=
  mkPID (Kp p) (Ki p) (Kd p) (Kaw p) (T_C p) (T p) (max p) (min p) (max_rate p)
        (integral p) (err_prev p) v (command_sat_prev p)
        (command_prev p) (command_sat p).
Definition set_command_sat_prev (v : float) (p : PID) : PID :=
  mkPID (Kp p) (Ki p) (Kd p) (Kaw p) (T_C p) (T p) (max p) (min p) (max_rate p)
        (integral p) (err_prev p) (deriv_prev p) v
        (command_prev p) (command_sat p).
Definition set_command_prev (v : float) (p : PID) : PID :=
  mkPID (Kp p) (Ki p) (Kd p) (Kaw p) (T_C p) (T p) (max p) (min p) (max_rate p)
        (integral p) (err_prev p) (deriv_prev p) (command_sat_prev p)
        v (command_sat p).
Definition set_command_sat (v : float) (p : PID) : PID :=
  mkPID (Kp p) (Ki p) (Kd p) (Kaw p) (T_C p) (T p) (max p) (min p) (max_rate p)
        (integral p) (err_prev p) (deriv_prev p) (command_sat_prev p)
        (command_prev p) v.

(** [x > y] *)
Definition gtb (x y : float) : bool := PrimFloat.ltb y x.

(** Lines 52-57 of [Step], "Saturate command". *)
Definition saturate (self : PID) (command : float) : PID :=
  if gtb command (max self) then set_command_sat (max self) self
  else if PrimFloat.ltb command (min self) then set_command_sat (min self) self
  else set_command_sat command self.

(** Lines 60-63 of [Step], "Apply rate limiter". *)
Definition rate_limit (self : PID) : PID :=
  if gtb (command_sat self) (command_sat_prev self + max_rate self * T self)
  then set_command_sat (command_sat_prev self + max_rate self * T self) self
  else if PrimFloat.ltb (command_sat self)
                        (command_sat_prev self - max_rate self * T self)
  then set_command_sat (command_sat_prev self - max_rate self * T self) self
  else self.

(** [PID.Step(measurement, setpoint)].  A float division raises
    [ZeroDivisionError] when the divisor equals zero. *)
Definition Step (self : PID) (measurement setpoint : float)
    : PID * outcome pyval :=
  (* Calculate error *)
  let err := setpoint - measurement in
  (* Update integral term with anti-windup *)
  let self :=
    set_integral
      (integral self
       + (Ki self * err * T self
          + Kaw self * (command_sat_prev self - command_prev self) * T self))
      self in
  (* Calculate filtered derivative *)
  if PrimFloat.eqb (T self + T_C self) 0 then (self, Raise ZeroDivisionError)
  else
    let deriv_filt :=
      (err - err_prev self + T_C self * deriv_prev self) / (T self + T_C self) in
    let self := set_err_prev err self in
    let self := set_deriv_prev deriv_filt self in
    (* Calculate command using PID equation *)
    let command := Kp self * err + integral self + Kd self * deriv_filt in
    (* Store previous command *)
    let self := set_command_prev command self in
    (* Saturate command *)
    let self := saturate self command in
    (* Apply rate limiter *)
    let self := rate_limit self in
    (* Store previous saturated command *)
    let self := set_command_sat_prev (command_sat self) self in
    (self, Ok PyNone).

(** What the program does with the controller object: it calls [Step], and
    between two calls it may assign the three gains. *)
Inductive call : Type :=
| CallStep (measurement setpoint : float)
| SetGains (kp ki kd : float).

(** The saturated commands a sequence of calls stores, one per [Step]
    call, oldest first.  A call that raises ends the sequence. *)
Fixpoint outputs (p : PID) (calls : list call) : list float :=
  match calls with
  | [] => []
  | CallStep m sp :: rest =>
      match Step p m sp with
      | (p', Ok _) => command_sat p' :: outputs p' rest
      | (_, Raise _) => []
      end
  | SetGains kp ki kd :: rest => outputs (set_Kd kd (set_Ki ki (set_Kp kp p))) rest
  end.

Fixpoint steps (calls : list call) : nat :=
  match calls with
  | [] => O
  | CallStep _ _ :: rest => S (steps rest)
  | SetGains _ _ _ :: rest => steps rest
  end.

(** Every entry [o] of [outs] is held by the rate limiter to the entry
    [prev] before it (the first one to [prev]): it is the rounded sum
    [prev + max_rate * T], or the rounded difference [prev - max_rate * T],
    or it is neither above the one nor below the other. *)
Fixpoint held (max_rate T prev : float) (outs : list float) : Prop :=
  match outs with
  | [] => True
  | o :: rest =>
      (o = prev + max_rate * T
       \/ o = prev - max_rate * T
       \/ (gtb o (prev + max_rate * T) = false
           /\ PrimFloat.ltb o (prev - max_rate * T) = false))
      /\ held max_rate T o rest
  end.

(** The rational a finite float stands for (0 for infinities and nan). *)
Definition exact (x : float) : Q :=
  match Prim2SF x with
  | S754_finite s m e =>
      ((if s then -1 else 1) * inject_Z (Zpos m) * 2 ^ e)%Q
  | _ => 0%Q
  end.

(** The controller of the two-tick scenario. *)
Definition scenario : PID := init 1 0 0 0 1 0.1 10 0 0.5.

(** main.py *)
Definition target_temp : float := 50.

(** Line 105: [error = target_temp - current_temp]. *)
Definition error_of (current_temp : float) : float := target_temp - current_temp.

(** Lines 135-137. *)
Definition append_error (error_history : list float) (error : float)
    : list float :=
  let error_history := error_history ++ [error] in
  if (50 <? length error_history)%nat then tl error_history
  else error_history.

(** Line 141, "Reconstruct history". *)
Definition reconstruct (error_history : list float) : list float :=
  map (fun e => target_temp - e) error_history.

(** [error_history] after passes that measured [temps], from the empty
    list: each pass computes its error (line 105) and appends it (lines
    135-137). *)
Definition history_of_measurements (temps : list float) : list float :=
  fold_left (fun h temp => append_error h (error_of temp)) temps [].

End binary64.

(* ------------------------------------------------------------------ *)
(** ** Properties of [PID.Step] *)

Import pid_tuner main usage.

Lemma Qle_bool_false (x y : Q) : Qle_bool x y = false -> y < x.
Proof.
  intros H. apply Qnot_le_lt. intros Hle.
  apply Qle_bool_iff in Hle. congruence.
Qed.

(** Case analysis on every comparison of the goal. *)
Ltac Qcases :=
  repeat match goal with
         | |- context [Qle_bool ?a ?b] =>
             let E := fresh "E" in
             destruct (Qle_bool a b) eqn:E;
             [apply Qle_bool_iff in E | apply Qle_bool_false in E]
         end.

Ltac pid_fields :=
  cbn [Kp Ki Kd Kaw T_C T max min max_rate integral err_prev deriv_prev
       command_sat_prev command_prev command_sat
       set_Kp set_Ki set_Kd set_integral set_err_prev set_deriv_prev
       set_command_sat_prev set_command_prev set_command_sat negb fst snd].

(** [saturate] writes [command_sat] only, and leaves it in the range. *)
Lemma saturate_frame (p : PID) (c : Q) :
  command_sat_prev (saturate p c) = command_sat_prev p
  /\ max_rate (saturate p c) = max_rate p /\ T (saturate p c) = T p
  /\ max (saturate p c) = max p /\ min (saturate p c) = min p.
Proof. unfold saturate, Qgtb, Qltb. Qcases; pid_fields; tauto. Qed.

Lemma saturate_range (p : PID) (c : Q) :
  min p <= max p ->
  min p <= command_sat (saturate p c) <= max p.
Proof.
  intros Hb. unfold saturate, Qgtb, Qltb. Qcases; pid_fields; lra.
Qed.

Lemma rate_limit_frame (p : PID) :
  command_sat_prev (rate_limit p) = command_sat_prev p
  /\ max (rate_limit p) = max p /\ min (rate_limit p) = min p.
Proof. unfold rate_limit, Qgtb, Qltb. Qcases; pid_fields; tauto. Qed.

(** The rate limiter leaves the command within [max_rate * T] of the
    previous saturated command. *)
Lemma rate_limit_slew (p : PID) :
  0 <= max_rate p * T p ->
  Qabs (command_sat (rate_limit p) - command_sat_prev p) <= max_rate p * T p.
Proof.
  intros Hr. apply Qabs_Qle_condition.
  unfold rate_limit, Qgtb, Qltb. Qcases; pid_fields; lra.
Qed.

(** The rate limiter keeps a command in the range when the previous
    saturated command is in the range. *)
Lemma rate_limit_range (p : PID) :
  0 <= max_rate p * T p ->
  min p <= command_sat_prev p <= max p ->
  min p <= command_sat p <= max p ->
  min p <= command_sat (rate_limit p) <= max p.
Proof.
  intros Hr Hprev Hc.
  unfold rate_limit, Qgtb, Qltb. Qcases; pid_fields; lra.
Qed.

(** The parameters of the controller are not written by [Step]. *)
Lemma Step_frame (p : PID) (m sp : Q) :
  let p' := fst (Step p m sp) in
  Kp p' = Kp p /\ Ki p' = Ki p /\ Kd p' = Kd p /\ Kaw p' = Kaw p
  /\ T_C p' = T_C p /\ T p' = T p /\ max p' = max p /\ min p' = min p
  /\ max_rate p' = max_rate p.
Proof.
  unfold Step. pid_fields.
  destruct (Qeq_bool _ _); pid_fields; [tauto|].
  unfold rate_limit, saturate, Qgtb, Qltb.
  Qcases; pid_fields; tauto.
Qed.

Ltac pid_fields_all :=
  cbn [Kp Ki Kd Kaw T_C T max min max_rate integral err_prev deriv_prev
       command_sat_prev command_prev command_sat
       set_Kp set_Ki set_Kd set_integral set_err_prev set_deriv_prev
       set_command_sat_prev set_command_prev set_command_sat negb fst snd] in *.

(** What a call of [Step] that does not raise leaves behind. *)
Lemma Step_spec (p : PID) (m sp : Q) :
  Qeq_bool (T p + T_C p) 0 = false ->
  let p' := fst (Step p m sp) in
  snd (Step p m sp) = Ok PyNone
  /\ command_sat_prev p' = command_sat p'
  /\ (0 <= max_rate p * T p ->
      Qabs (command_sat p' - command_sat_prev p) <= max_rate p * T p)
  /\ (0 <= max_rate p * T p -> min p <= max p ->
      min p <= command_sat_prev p <= max p ->
      min p <= command_sat p' <= max p).
Proof.
  intros Hdiv. unfold Step. pid_fields. rewrite Hdiv. cbv zeta.
  match goal with
  | |- context [rate_limit (saturate ?a ?c)] =>
      pose proof (saturate_range a c) as Hsat;
      destruct (saturate_frame a c) as (Hprev & Hrate & HT & Hmax & Hmin);
      set (q := saturate a c) in *
  end.
  pid_fields_all.
  destruct (rate_limit_frame q) as (Hprev' & Hmax' & Hmin').
  split; [reflexivity|]. split; [reflexivity|]. split.
  - intros Hr. rewrite <- Hprev, <- Hrate, <- HT.
    apply rate_limit_slew. rewrite Hrate, HT. exact Hr.
  - intros Hr Hb Hp. rewrite <- Hmin, <- Hmax. apply rate_limit_range.
    all: rewrite ?Hrate, ?HT, ?Hprev, ?Hmax, ?Hmin; auto.
Qed.

(** Assigning the gains leaves every other attribute alone. *)
Lemma assign_gains_frame (g : gains) (p : PID) :
  T_C (assign_gains g p) = T_C p /\ T (assign_gains g p) = T p
  /\ max (assign_gains g p) = max p /\ min (assign_gains g p) = min p
  /\ max_rate (assign_gains g p) = max_rate p
  /\ command_sat_prev (assign_gains g p) = command_sat_prev p.
Proof. destruct g as [[kp ki] kd]. cbn. tauto. Qed.

Lemma assign_gains_gains (g : gains) (p : PID) :
  gains_of (assign_gains g p) = g.
Proof. destruct g as [[kp ki] kd]. reflexivity. Qed.

Lemma positive_period (p : PID) :
  0 < T p -> 0 < T_C p -> Qeq_bool (T p + T_C p) 0 = false.
Proof.
  intros Ht Hc. destruct (Qeq_bool _ _) eqn:E; [|reflexivity].
  apply Qeq_bool_iff in E. lra.
Qed.

(** Every [Step] call of a sequence produces a command, and the commands
    obey the rate limit; they stay in the range once the previous
    saturated command is in it. *)
Lemma outputs_invariant (calls : list call) : forall p : PID,
  Qeq_bool (T p + T_C p) 0 = false ->
  0 <= max_rate p * T p ->
  length (outputs p calls) = steps calls
  /\ slew_bounded (max_rate p * T p) (command_sat_prev p) (outputs p calls)
  /\ (min p <= max p -> min p <= command_sat_prev p <= max p ->
      Forall (fun o => min p <= o <= max p) (outputs p calls)).
Proof.
  induction calls as [|c calls IH]; intros p Hdiv Hr.
  - cbn. auto.
  - destruct c as [m sp|g]; cbn [outputs steps].
    + destruct (Step_spec p m sp Hdiv) as (Hret & Hprev & Hslew & Hrange).
      destruct (Step_frame p m sp)
        as (_ & _ & _ & _ & HTC & HT & Hmax & Hmin & Hrate).
      destruct (Step p m sp) as [p' r]. cbn [fst snd] in *. subst r.
      pose proof (IH p') as IH'.
      rewrite Hrate, HT, HTC, Hmax, Hmin, Hprev in IH'.
      destruct (IH' Hdiv Hr) as (Hlen & Hs & Hin).
      cbn [length slew_bounded]. split; [congruence|]. split; [auto|].
      intros Hb Hp. specialize (Hrange Hr Hb Hp). constructor; auto.
    + destruct (assign_gains_frame g p) as (HTC & HT & Hmax & Hmin & Hrate & Hprev).
      pose proof (IH (assign_gains g p)) as IH'.
      rewrite Hrate, HT, HTC, Hmax, Hmin, Hprev in IH'.
      exact (IH' Hdiv Hr).
Qed.

(** A call of [Step] raises at the division or returns [None]. *)
Lemma Step_result (p : PID) (m sp : Q) :
  snd (Step p m sp)
  = if Qeq_bool (T p + T_C p) 0 then Raise ZeroDivisionError else Ok PyNone.
Proof. unfold Step. pid_fields. destruct (Qeq_bool _ _); reflexivity. Qed.

(** C1. [Step] does not return the saturated command: a call that does
    not raise returns [None], whatever the state and the inputs; the command
    is only stored in [command_sat]. *)
Theorem Step_returns_None (p : PID) (m sp : Q) :
  snd (Step p m sp)
  = (if Qeq_bool (T p + T_C p) 0 then Raise ZeroDivisionError else Ok PyNone)
  /\ snd (Step p m sp) <> Ok (PyNum (command_sat (fst (Step p m sp)))).
Proof.
  split; [apply Step_result|].
  rewrite Step_result. destruct (Qeq_bool _ _); discriminate.
Qed.

(** The caller of [Step] compares the returned value with 0: a pass that
    has read a temperature ends in the [except Exception] clause. *)
Lemma tick_aborts (minimize : gains -> minimizer) (s : State) (inp : TickInput) :
  snd (tick minimize s inp)
  = Aborted (if Qeq_bool (T (pid s) + T_C (pid s)) 0
             then ZeroDivisionError else TypeError).
Proof.
  unfold tick, tick_body, actuate, bind.
  pose proof (Step_result (pid s) (current_temp inp) target_temp) as H.
  destruct (Step _ _ _) as [p r]. cbn [snd] in H. subst r.
  destruct (Qeq_bool _ _); reflexivity.
Qed.

(** A first pass that has read 40 degrees: the controller computes and
    stores the command 0.05, [Step] returns [None], and the pass ends in
    [TypeError]. *)
Example first_pass :
  snd (Step pid0 40 50) = Ok PyNone
  /\ command_sat (fst (Step pid0 40 50)) == 0.05
  /\ snd (real_time_pid_tuning probing start [mkTickInput 0 40 false])
     = Aborted TypeError.
Proof. repeat split; vm_compute; reflexivity. Qed.

(** C2, amended. With valid parameters and the previous saturated command
    in [[min, max]] (for a new controller: [min <= 0 <= max]), every [Step]
    call produces a saturated command, and every one of them lies in
    [[min, max]], the first included. *)
Theorem Step_output_in_range (p : PID) (calls : list call) :
  valid p ->
  min p <= command_sat_prev p <= max p ->
  length (outputs p calls) = steps calls
  /\ Forall (fun o => min p <= o <= max p) (outputs p calls).
Proof.
  intros Hv Hp. destruct Hv.
  destruct (outputs_invariant calls p) as (Hlen & _ & Hin).
  - apply positive_period; assumption.
  - apply Qmult_le_0_compat; lra.
  - auto.
Qed.

Lemma scenario_valid : valid scenario.
Proof. constructor; cbn; lra. Defined.

Lemma Step_output_in_range_witness :
  length (outputs scenario [CallStep 40 50; SetGains (2, 1, 0); CallStep 40 50])
  = steps [CallStep 40 50; SetGains (2, 1, 0); CallStep 40 50]
  /\ Forall (fun o => min scenario <= o <= max scenario)
            (outputs scenario [CallStep 40 50; SetGains (2, 1, 0); CallStep 40 50]).
Proof.
  apply (Step_output_in_range scenario).
  - exact scenario_valid.
  - cbn. lra.
Defined.

(** C2 as stated fails: the parameters of [offset_range] are valid, its
    range is [[5, 10]], and its first saturated command is 0.05. *)
Lemma Step_output_out_of_range :
  valid offset_range
  /\ command_sat (fst (Step offset_range 40 50)) == 0.05
  /\ ~ (min offset_range <= command_sat (fst (Step offset_range 40 50))
        <= max offset_range).
Proof.
  split; [constructor; cbn; lra|].
  split; [vm_compute; reflexivity|].
  intros [H _]. vm_compute in H. apply H. reflexivity.
Qed.

(** C7. From the initial state with Kp=1, Ki=Kd=Kaw=0, T_C=1, T=0.1,
    max=10, min=0, max_rate=0.5, two calls with measurement 40 and setpoint
    50 leave the saturated command at exactly 0.05 and then exactly 0.10. *)
Theorem two_tick_scenario :
  let p1 := fst (Step scenario 40 50) in
  let p2 := fst (Step p1 40 50) in
  command_sat p1 == 0.05 /\ command_sat p2 == 0.10
  /\ Forall2 Qeq (outputs scenario [CallStep 40 50; CallStep 40 50]) [0.05; 0.10].
Proof.
  cbv zeta. split; [vm_compute; reflexivity|].
  split; [vm_compute; reflexivity|].
  vm_compute outputs.
  apply Forall2_cons; [reflexivity|].
  apply Forall2_cons; [reflexivity|]. apply Forall2_nil.
Qed.

(* ------------------------------------------------------------------ *)
(** ** The cost function and the minimizer *)

Lemma cost_fold (setpoint : Q) (temperature_history : list Q) : forall acc : Q,
  fold_left (fun total_error temp =>
               let error := setpoint - temp in total_error + error ^ 2)
            temperature_history acc
  == acc + sum_squared_error setpoint temperature_history.
Proof.
  induction temperature_history as [|temp rest IH]; intros acc; cbn [fold_left sum_squared_error].
  - lra.
  - rewrite IH. cbv zeta. ring.
Qed.

(** [pid_cost] assigns the candidate to the gains of [pid]. *)
Lemma pid_cost_pid (hist : list Q) (sp : Q) (c : gains) (p : PID) :
  fst (pid_cost hist sp c p) = assign_gains c p.
Proof. destruct c as [[kp ki] kd]. reflexivity. Qed.

(** C4. The value of the cost function does not depend on the candidate
    gain triple (nor on the controller): for every temperature history and
    setpoint it is the sum over the history of (setpoint - temperature)
    squared. *)
Theorem pid_cost_ignores_candidate (temperature_history : list Q) (setpoint : Q)
    (c1 c2 : gains) (p1 p2 : PID) :
  snd (pid_cost temperature_history setpoint c1 p1)
  = snd (pid_cost temperature_history setpoint c2 p2)
  /\ snd (pid_cost temperature_history setpoint c1 p1)
     == sum_squared_error setpoint temperature_history.
Proof.
  destruct c1 as [[a1 b1] d1], c2 as [[a2 b2] d2]. cbn [pid_cost snd].
  split; [reflexivity|]. rewrite cost_fold. lra.
Qed.

Lemma last_cons {A} (l : list A) : forall a d : A, last (a :: l) d = last l a.
Proof.
  induction l as [|b l IH]; intros a d; [reflexivity|].
  change (last (a :: b :: l) d) with (last (b :: l) d).
  rewrite (IH b d), (IH b a). reflexivity.
Qed.

(** The [pid] a run of the minimizer ends with is the last one of its
    trace, or the initial one when no cost was asked for. *)
Lemma run_minimizer_last (cost : gains -> PID -> PID * Q) (m : minimizer) :
  forall p : PID,
    fst (run_minimizer cost m p) = last (minimizer_trace cost m p) p.
Proof.
  induction m as [x ok|e|c k IH]; intros p; cbn [run_minimizer minimizer_trace];
    try reflexivity.
  destruct (cost c p) as [p' v]. rewrite last_cons. apply IH.
Qed.

(** Against [pid_cost], every entry of the trace is the initial [pid] with
    a candidate in its gains. *)
Lemma trace_assigns_candidates (hist : list Q) (sp : Q) (p0 : PID) (m : minimizer) :
  forall p : PID,
    (forall c, assign_gains c p = assign_gains c p0) ->
    Forall (fun p' => exists c, p' = assign_gains c p0)
           (minimizer_trace (pid_cost hist sp) m p).
Proof.
  induction m as [x ok|e|c k IH]; intros p Hp; cbn [minimizer_trace];
    try constructor.
  - destruct (pid_cost hist sp c p) as [p' v] eqn:E.
    assert (Hp' : p' = assign_gains c p0).
    { rewrite <- Hp, <- (pid_cost_pid hist sp c p), E. reflexivity. }
    constructor; [exists c; exact Hp'|].
    apply IH. intros c'. rewrite Hp'.
    destruct c as [[a b] d], c' as [[a' b'] d']. reflexivity.
Qed.

Lemma last_Forall {A} (P : A -> Prop) (l : list A) (d : A) :
  P d -> Forall P l -> P (last l d).
Proof.
  intros Hd Hl. revert d Hd. induction Hl as [|a l Ha Hl IH]; intros d Hd.
  - exact Hd.
  - rewrite last_cons. apply IH. exact Ha.
Qed.

(** Lines 134-143, by cases on the condition of line 140 and on the way
    the minimizer ends. *)
Lemma record_and_retune_cases (minimize : gains -> minimizer) (t err : Q) (s : State) :
  record_and_retune minimize t err s
  = let h := append_error (error_history s) err in
    if optimization_due h t then
      match optimize_result minimize s err with
      | (p, Ok x) =>
          (mkState (assign_gains x p) h x
                   (log s ++ [(INFO, "Optimization successful"%string)])
                   (actuations s), Ok tt)
      | (p, Raise e) =>
          (mkState p h (coefficients s) (log s) (actuations s), Raise e)
      end
    else (mkState (pid s) h (coefficients s) (log s) (actuations s), Ok tt).
Proof.
  unfold record_and_retune, optimize_result, optimize_pid, bind, modify.
  cbn. destruct (optimization_due _ _); [|reflexivity].
  destruct (run_minimizer _ _ _) as [p [x|e]]; reflexivity.
Qed.

(** The gains are not written by [Step]. *)
Lemma Step_gains (p : PID) (m sp : Q) :
  gains_of (fst (Step p m sp)) = gains_of p.
Proof.
  destruct (Step_frame p m sp) as (H1 & H2 & H3 & _).
  unfold gains_of. cbv zeta in *. congruence.
Qed.

(** Against [pid_cost], the trace of a run is the initial [pid] with each
    candidate asked in turn written into its gains. *)
Lemma trace_is_candidates (hist : list Q) (sp : Q) (p0 : PID) (c0 : gains)
    (m : minimizer) :
  forall p : PID,
    (forall c, assign_gains c p = assign_gains c p0) ->
    minimizer_trace (pid_cost hist sp) m p
    = map (fun c => assign_gains c p0)
          (retuning.asked (snd (pid_cost hist sp c0 p0)) m).
Proof.
  induction m as [x ok|e|c k IH]; intros p Hp;
    cbn [minimizer_trace retuning.asked map]; try reflexivity.
  destruct (pid_cost hist sp c p) as [p' v] eqn:E.
  assert (Hp' : p' = assign_gains c p0).
  { rewrite <- Hp, <- (pid_cost_pid hist sp c p), E. reflexivity. }
  assert (Ev : v = snd (pid_cost hist sp c0 p0)).
  { destruct c as [[a b] d], c0 as [[a0 b0] d0].
    cbn [pid_cost] in E. inversion E. reflexivity. }
  subst v. f_equal; [exact Hp'|].
  apply IH. intros c'. rewrite Hp'.
  destruct c as [[a b] d], c' as [[a' b'] d']. reflexivity.
Qed.

(** C5, amended. While a pass is inside the optimizer, every evaluation of
    the cost function assigns its candidate to the gains of the controller
    and changes nothing else of it: the successive values of [pid] are the
    [pid] before the call with, in turn, each candidate the minimizer asks
    the cost of in its gains.  When the optimizer returns, the pass assigns
    the returned triple, so the pass ends with the returned triple in the
    gains and in [coefficients]; when it raises, the gains stay as the last
    cost evaluation left them.  [Step] does not write the gains. *)
Theorem gains_written_by_cost_and_result (minimize : gains -> minimizer)
    (s : State) (t err : Q) :
  optimization_due (append_error (error_history s) err) t = true ->
  let s' := fst (record_and_retune minimize t err s) in
  let cost := snd (pid_cost (reconstruct (append_error (error_history s) err))
                            target_temp (coefficients s) (pid s)) in
  pid_during_optimize minimize s err
  = map (fun c => assign_gains c (pid s))
        (retuning.asked cost (minimize (coefficients s)))
  /\ (forall p x, optimize_result minimize s err = (p, Ok x) ->
        pid s' = assign_gains x (pid s) /\ coefficients s' = x)
  /\ (forall p e, optimize_result minimize s err = (p, Raise e) ->
        pid s' = last (pid_during_optimize minimize s err) (pid s))
  /\ (forall m sp, gains_of (fst (Step (pid s') m sp)) = gains_of (pid s')).
Proof.
  intros Hdue s' cost.
  assert (Htrace : Forall (fun p' => exists c, p' = assign_gains c (pid s))
                          (pid_during_optimize minimize s err)).
  { apply trace_assigns_candidates. reflexivity. }
  pose proof (run_minimizer_last
                (pid_cost (reconstruct (append_error (error_history s) err)) target_temp)
                (minimize (coefficients s)) (pid s)) as Hlast.
  fold (optimize_result minimize s err) in Hlast.
  fold (pid_during_optimize minimize s err) in Hlast.
  subst s'. rewrite record_and_retune_cases. cbv zeta. rewrite Hdue.
  split; [|split; [|split]].
  - apply trace_is_candidates. reflexivity.
  - intros p x E. rewrite E in *. cbn [fst pid coefficients] in *.
    split; [|reflexivity].
    assert (Hp : p = pid s \/ exists c, p = assign_gains c (pid s)).
    { rewrite Hlast.
      apply (last_Forall (fun q => q = pid s \/ exists c, q = assign_gains c (pid s))).
      - now left.
      - eapply Forall_impl; [|exact Htrace]. intros q Hq. now right. }
    destruct Hp as [->|[c ->]]; [reflexivity|].
    destruct c as [[a b] d], x as [[a' b'] d']. reflexivity.
  - intros p e E. rewrite E in *. cbn [fst pid] in *. exact Hlast.
  - intros m sp. apply Step_gains.
Qed.

Lemma gains_written_by_cost_and_result_witness :
  let s' := fst (record_and_retune probing 0 10 warm) in
  let cost := snd (pid_cost (reconstruct (append_error (error_history warm) 10))
                            target_temp (coefficients warm) (pid warm)) in
  pid_during_optimize probing warm 10
  = map (fun c => assign_gains c (pid warm))
        (retuning.asked cost (probing (coefficients warm)))
  /\ (forall p x, optimize_result probing warm 10 = (p, Ok x) ->
        pid s' = assign_gains x (pid warm) /\ coefficients s' = x)
  /\ (forall p e, optimize_result probing warm 10 = (p, Raise e) ->
        pid s' = last (pid_during_optimize probing warm 10) (pid warm))
  /\ (forall m sp, gains_of (fst (Step (pid s') m sp)) = gains_of (pid s')).
Proof.
  apply (gains_written_by_cost_and_result probing warm 0 10).
  vm_compute. reflexivity.
Defined.

(** C5 as stated fails: with the minimizer [probing], the second cost
    evaluation of a pass leaves [Kp] at 0.50000001, which is neither the
    gain before the call (0.5) nor that of the returned triple (0.5). *)
Lemma gains_change_during_optimize :
  optimization_due (append_error (error_history warm) 10) 0 = true
  /\ Kp (pid warm) == 0.5
  /\ (exists p, nth_error (pid_during_optimize probing warm 10) 1 = Some p
                /\ Kp p == 0.50000001 /\ ~ Kp p == Kp (pid warm))
  /\ (exists p x, optimize_result probing warm 10 = (p, Ok x)
                  /\ fst (fst x) == 0.5).
Proof.
  split; [vm_compute; reflexivity|].
  split; [vm_compute; reflexivity|].
  split.
  - eexists. split; [vm_compute; reflexivity|].
    split; [vm_compute; reflexivity|].
    intros H. vm_compute in H. discriminate H.
  - eexists. eexists. split; [vm_compute; reflexivity|]. vm_compute. reflexivity.
Qed.

(* ------------------------------------------------------------------ *)
(** ** Failure of the optimizer *)

(** C6, amended. When the optimizer call raises, the pass logs an error
    and the exception leaves the loop: no later pass runs.  [coefficients]
    keeps the previous triple; the gains of the controller are as the last
    cost evaluation left them.  When the optimizer returns, converged or
    not, the pass applies the returned triple and the loop goes on. *)
Theorem optimizer_exception_ends_loop (minimize : gains -> minimizer)
    (s : State) (t err : Q) :
  optimization_due (append_error (error_history s) err) t = true ->
  (forall p e, optimize_result minimize s err = (p, Raise e) ->
     is_Exception e = true ->
     handle (record_and_retune minimize t err s)
     = (mkState p (append_error (error_history s) err) (coefficients s)
                (log s ++ [(ERROR, "Error during PID tuning"%string)])
                (actuations s),
        Aborted e)
     /\ p = last (pid_during_optimize minimize s err) (pid s))
  /\ (forall p x, optimize_result minimize s err = (p, Ok x) ->
        handle (record_and_retune minimize t err s)
        = (mkState (assign_gains x p) (append_error (error_history s) err) x
                   (log s ++ [(INFO, "Optimization successful"%string)])
                   (actuations s),
           Running)).
Proof.
  intros Hdue. rewrite record_and_retune_cases. cbv zeta. rewrite Hdue.
  split.
  - intros p e E He. rewrite E. cbn [handle]. rewrite He. split; [reflexivity|].
    unfold optimize_result in E. unfold pid_during_optimize.
    rewrite <- run_minimizer_last, E. reflexivity.
  - intros p x E. rewrite E. reflexivity.
Qed.

Lemma optimizer_exception_ends_loop_witness :
  (forall p e, optimize_result raising_late warm 10 = (p, Raise e) ->
     is_Exception e = true ->
     handle (record_and_retune raising_late 0 10 warm)
     = (mkState p (append_error (error_history warm) 10) (coefficients warm)
                (log warm ++ [(ERROR, "Error during PID tuning"%string)])
                (actuations warm),
        Aborted e)
     /\ p = last (pid_during_optimize raising_late warm 10) (pid warm))
  /\ (forall p x, optimize_result raising_late warm 10 = (p, Ok x) ->
        handle (record_and_retune raising_late 0 10 warm)
        = (mkState (assign_gains x p) (append_error (error_history warm) 10) x
                   (log warm ++ [(INFO, "Optimization successful"%string)])
                   (actuations warm),
           Running)).
Proof.
  apply (optimizer_exception_ends_loop raising_late warm 0 10).
  vm_compute. reflexivity.
Defined.

(** C6 as stated fails.  A minimizer that raises ends the loop with an
    error record and no warning; one that raises after a cost evaluation
    also leaves the candidate (1, 2, 3) in the gains; one that returns
    without converging has its result (9, 9, 9) applied. *)
Lemma optimizer_failure_not_recovered :
  optimization_due (append_error (error_history warm) 10) 0 = true
  /\ gains_of (pid warm) = (0.5, 0.1, 0.01)
  /\ (let r := handle (record_and_retune raising 0 10 warm) in
      snd r = Aborted (OptimizeError "bounds") /\ levels (fst r) = [ERROR])
  /\ (let r := handle (record_and_retune raising_late 0 10 warm) in
      snd r = Aborted (OptimizeError "line search")
      /\ levels (fst r) = [ERROR]
      /\ gains_of (pid (fst r)) = (1, 2, 3))
  /\ (let r := handle (record_and_retune stalling 0 10 warm) in
      snd r = Running /\ levels (fst r) = [INFO]
      /\ gains_of (pid (fst r)) = (9, 9, 9)).
Proof.
  cbv zeta. repeat split; vm_compute; reflexivity.
Qed.

(** An exception that reaches [except Exception] ends the loop: the passes
    that would follow do not run. *)
Lemma main_loop_aborted (minimize : gains -> minimizer) (s s' : State)
    (inp : TickInput) (rest : list TickInput) (e : exn) :
  tick minimize s inp = (s', Aborted e) ->
  main_loop minimize s (inp :: rest) = (s', Aborted e).
Proof. intros H. cbn [main_loop]. rewrite H. reflexivity. Qed.

(* ------------------------------------------------------------------ *)
(** ** The error history *)

Lemma append_error_length (h : list Q) (e : Q) :
  (length h <= 50)%nat -> (length (append_error h e) <= 50)%nat.
Proof.
  intros Hh. unfold append_error.
  destruct (Nat.ltb_spec 50 (length (h ++ [e]))) as [Hlt|Hge]; [|exact Hge].
  rewrite length_app in Hlt. cbn in Hlt.
  destruct h as [|a h]; cbn in *; [lia|].
  rewrite length_app. cbn. lia.
Qed.

(** Appending to a history of at most 50 entries keeps the last 50 of the
    extended list. *)
Lemma append_error_lastn (h : list Q) (e : Q) :
  (length h <= 50)%nat -> append_error h e = lastn 50 (h ++ [e]).
Proof.
  intros Hh. unfold append_error, lastn.
  destruct (Nat.ltb_spec 50 (length (h ++ [e]))) as [Hlt|Hge].
  - rewrite length_app in *. cbn [length] in *.
    replace (length h + 1 - 50)%nat with 1%nat by lia.
    destruct h; reflexivity.
  - replace (length (h ++ [e]) - 50)%nat with 0%nat by lia. reflexivity.
Qed.

Lemma lastn_app_lastn {A} (n : nat) (l1 l2 : list A) :
  lastn n (lastn n l1 ++ l2) = lastn n (l1 ++ l2).
Proof.
  unfold lastn. rewrite !length_app, length_skipn.
  destruct (Nat.le_gt_cases (length l1) n) as [Hle|Hgt].
  - replace (length l1 - n)%nat with 0%nat by lia.
    cbn [skipn]. rewrite Nat.sub_0_r. reflexivity.
  - rewrite skipn_app, skipn_skipn, length_skipn.
    rewrite (skipn_app (length l1 + length l2 - n)).
    replace (length l1 - (length l1 - n) + length l2 - n + (length l1 - n))%nat
      with (length l1 + length l2 - n)%nat by lia.
    replace (length l1 - (length l1 - n) + length l2 - n
             - (length l1 - (length l1 - n)))%nat
      with (length l1 + length l2 - n - length l1)%nat by lia.
    reflexivity.
Qed.

Lemma fold_append_error (errors : list Q) : forall h : list Q,
  (length h <= 50)%nat ->
  fold_left append_error errors h = lastn 50 (h ++ errors)
  /\ (length (fold_left append_error errors h) <= 50)%nat.
Proof.
  induction errors as [|e errors IH]; intros h Hh; cbn [fold_left].
  - rewrite app_nil_r. unfold lastn.
    replace (length h - 50)%nat with 0%nat by lia. auto.
  - destruct (IH (append_error h e) (append_error_length h e Hh)) as [IH1 IH2].
    split; [|exact IH2].
    rewrite IH1, append_error_lastn by exact Hh.
    rewrite lastn_app_lastn, <- app_assoc. reflexivity.
Qed.

Lemma last_In {A} (l : list A) (d : A) : l <> [] -> In (last l d) l.
Proof.
  intros Hl. destruct (exists_last Hl) as (l' & a & ->).
  rewrite last_last. apply in_or_app. right. now left.
Qed.

(** C8. The error history is a FIFO of capacity 50: a push on a history
    of at most 50 entries leaves at most 50; from the empty history, any
    sequence of pushes leaves the last 50 values pushed, in the order they
    were pushed; after 51 pushes these are the 2nd to the 51st, so the 51st
    is there, and the first is not unless the same value was pushed again. *)
Theorem error_history_bounded_fifo (errors : list Q) :
  (forall h e, (length h <= 50)%nat -> (length (append_error h e) <= 50)%nat)
  /\ (length (history_after errors) <= 50)%nat
  /\ history_after errors = lastn 50 errors
  /\ (forall first rest,
        errors = first :: rest -> length rest = 50%nat ->
        history_after errors = rest
        /\ In (last errors first) (history_after errors)
        /\ (~ In first rest -> ~ In first (history_after errors))).
Proof.
  destruct (fold_append_error errors []) as [Heq Hlen]; [cbn; lia|].
  cbn [app] in Heq. fold (history_after errors) in Heq, Hlen.
  split; [exact append_error_length|].
  split; [exact Hlen|]. split; [exact Heq|].
  intros first rest -> Hrest.
  assert (E : history_after (first :: rest) = rest).
  { rewrite Heq. unfold lastn. cbn [length]. rewrite Hrest. reflexivity. }
  rewrite E. split; [reflexivity|]. split; [|auto].
  rewrite last_cons. apply last_In. intros ->. discriminate.
Qed.

Lemma error_history_bounded_fifo_witness :
  let errors := map (fun n => inject_Z (Z.of_nat n)) (seq 1 51) in
  history_after errors = tl errors
  /\ In (last errors 1) (history_after errors)
  /\ (~ In 1 (tl errors) -> ~ In 1 (history_after errors)).
Proof.
  intros errors.
  destruct (error_history_bounded_fifo errors) as (_ & _ & _ & H).
  apply (H 1 (tl errors)); reflexivity.
Defined.

(* ------------------------------------------------------------------ *)
(** ** The optimization trigger *)

Lemma pymod_comp (x y m : Q) : x == y -> pymod x m == pymod y m.
Proof.
  intros H. unfold pymod.
  assert (E : Qfloor (x / m) = Qfloor (y / m)) by (rewrite H; reflexivity).
  rewrite E, H. reflexivity.
Qed.

(** [x % m] lies in [[0, m)] for a positive [m]. *)
Lemma pymod_range (x m : Q) : 0 < m -> 0 <= pymod x m < m.
Proof.
  intros Hm. unfold pymod.
  pose proof (Qfloor_le (x / m)) as Hlo.
  pose proof (Qlt_floor (x / m)) as Hhi.
  rewrite inject_Z_plus in Hhi.
  assert (Hx : x == m * (x / m)) by (field; lra).
  set (q := x / m) in *. set (f := inject_Z (Qfloor q)) in *.
  change (inject_Z 1) with 1 in Hhi.
  split.
  - assert (m * f <= m * q) by (apply Qmult_le_l; assumption). lra.
  - assert (m * q < m * (f + 1)) by (apply Qmult_lt_l; assumption). lra.
Qed.

Lemma Qltb_lt (x y : Q) : Qltb x y = true <-> x < y.
Proof.
  unfold Qltb. split.
  - intros H. apply Qle_bool_false. now apply negb_true_iff.
  - intros H. apply negb_true_iff.
    destruct (Qle_bool y x) eqn:E; [|reflexivity].
    apply Qle_bool_iff in E. lra.
Qed.

(** The state a pass that has read a temperature ends in: the exception
    of line 112 (or of the division in [Step]) is logged, and nothing after
    it has run. *)
Lemma tick_state (minimize : gains -> minimizer) (s : State) (inp : TickInput) :
  fst (tick minimize s inp)
  = emit ERROR "Error during PID tuning"
         (set_pid (fst (Step (pid s) (current_temp inp) target_temp)) s).
Proof.
  unfold tick, tick_body, actuate, bind.
  pose proof (Step_result (pid s) (current_temp inp) target_temp) as H.
  destruct (Step _ _ _) as [p r]. cbn [fst snd] in *. subst r.
  destruct (Qeq_bool _ _); reflexivity.
Qed.

(** C9. The condition of line 140 holds exactly when the history has more
    than 10 entries and the elapsed time modulo 5 is below the tuning
    interval; it depends on the length of the history and on the elapsed
    time only; a pass on which it does not hold leaves the gains (the whole
    controller, for lines 134-143) and [coefficients] as they were. *)
Theorem optimization_trigger (h : list Q) (t : Q) :
  (optimization_due h t = true
   <-> (10 < length h)%nat /\ pymod t 5 < tuning_interval)
  /\ (forall h' t', length h' = length h -> t' == t ->
        optimization_due h' t' = optimization_due h t)
  /\ (forall minimize s err,
        h = append_error (error_history s) err ->
        optimization_due h t = false ->
        let r := record_and_retune minimize t err s in
        snd r = Ok tt /\ pid (fst r) = pid s
        /\ coefficients (fst r) = coefficients s)
  /\ (forall minimize s inp,
        h = append_error (error_history s) (target_temp - current_temp inp) ->
        t = elapsed_time inp ->
        optimization_due h t = false ->
        gains_of (pid (fst (tick minimize s inp))) = gains_of (pid s)).
Proof.
  split; [|split; [|split]].
  - unfold optimization_due. rewrite andb_true_iff, Nat.ltb_lt, Qltb_lt.
    reflexivity.
  - intros h' t' Hlen Ht. unfold optimization_due, Qltb.
    rewrite Hlen, (pymod_comp t' t 5 Ht). reflexivity.
  - intros minimize s err -> Hdue r. subst r.
    rewrite record_and_retune_cases. cbv zeta. rewrite Hdue. auto.
  - intros minimize s inp _ _ _. rewrite tick_state. apply Step_gains.
Qed.

Lemma optimization_trigger_witness :
  let h := append_error (error_history warm) 10 in
  (optimization_due h 1 = true
   <-> (10 < length h)%nat /\ pymod 1 5 < tuning_interval)
  /\ (let r := record_and_retune probing 1 10 warm in
      snd r = Ok tt /\ pid (fst r) = pid warm
      /\ coefficients (fst r) = coefficients warm).
Proof.
  intros h.
  destruct (optimization_trigger h 1) as (H1 & _ & H3 & _).
  split; [exact H1|].
  apply (H3 probing warm 10); vm_compute; reflexivity.
Defined.

(* ------------------------------------------------------------------ *)
(** ** The temperature history handed to the optimizer *)

Lemma fold_left_measurements (temps : list Q) : forall h : list Q,
  fold_left (fun h temp => append_error h (target_temp - temp)) temps h
  = fold_left append_error (map (fun temp => target_temp - temp) temps) h.
Proof.
  induction temps as [|temp temps IH]; intros h; cbn [fold_left map];
    [reflexivity|apply IH].
Qed.

Lemma lastn_map {A B} (f : A -> B) (n : nat) (l : list A) :
  lastn n (map f l) = map f (lastn n l).
Proof. unfold lastn. rewrite length_map, skipn_map. reflexivity. Qed.

Lemma reconstruct_errors (temps : list Q) :
  Forall2 Qeq (reconstruct (map (fun temp => target_temp - temp) temps)) temps.
Proof.
  induction temps as [|temp temps IH]; cbn [map reconstruct]; constructor.
  - ring.
  - exact IH.
Qed.

(* ------------------------------------------------------------------ *)
(** ** More on [PID.Step] *)

Section StepDynamics.
Import dynamics.

Lemma Qltb_false (x y : Q) : Qltb x y = false -> y <= x.
Proof.
  unfold Qltb. intros H. apply negb_false_iff in H.
  now apply Qle_bool_iff.
Qed.

Lemma Qgtb_spec (x y : Q) : BoolSpec (y < x) (x <= y) (Qgtb x y).
Proof.
  unfold Qgtb. destruct (Qle_bool x y) eqn:E; constructor.
  - now apply Qle_bool_iff.
  - now apply Qle_bool_false.
Qed.

Lemma Qltb_spec (x y : Q) : BoolSpec (x < y) (y <= x) (Qltb x y).
Proof.
  unfold Qltb. destruct (Qle_bool y x) eqn:E; constructor.
  - now apply Qle_bool_iff.
  - now apply Qle_bool_false.
Qed.

(** The command [saturate] stores, as a clamp. *)
Lemma saturate_clamp (p : PID) (c : Q) :
  min p <= max p ->
  command_sat (saturate p c) == clamp (min p) (max p) c.
Proof.
  intros Hb. unfold saturate, clamp.
  destruct (Q.min_spec (max p) c) as [[H1 E1]|[H1 E1]];
    destruct (Q.max_spec (min p) (Qmin (max p) c)) as [[H2 E2]|[H2 E2]];
    rewrite E2, ?E1; rewrite ?E1 in H2;
    destruct (Qgtb_spec c (max p)); destruct (Qltb_spec c (min p));
    pid_fields; lra.
Qed.

(** The command [rate_limit] leaves, as a clamp around the previous one. *)
Lemma rate_limit_clamp (p : PID) :
  0 <= max_rate p * T p ->
  command_sat (rate_limit p)
  == clamp (command_sat_prev p - max_rate p * T p)
           (command_sat_prev p + max_rate p * T p) (command_sat p).
Proof.
  intros Hr. unfold rate_limit, clamp.
  set (lo := command_sat_prev p - max_rate p * T p).
  set (hi := command_sat_prev p + max_rate p * T p).
  assert (Hlohi : lo <= hi) by (unfold lo, hi; lra).
  destruct (Q.min_spec hi (command_sat p)) as [[H1 E1]|[H1 E1]];
    destruct (Q.max_spec lo (Qmin hi (command_sat p))) as [[H2 E2]|[H2 E2]];
    rewrite E2, ?E1; rewrite ?E1 in H2;
    destruct (Qgtb_spec (command_sat p) hi);
    destruct (Qltb_spec (command_sat p) lo);
    pid_fields; lra.
Qed.

(** The state a call of [Step] that does not raise leaves, attribute by
    attribute. *)
Lemma Step_state (p : PID) (m sp : Q) :
  Qeq_bool (T p + T_C p) 0 = false ->
  let p' := fst (Step p m sp) in
  integral p'
  = integral p
    + (Ki p * (sp - m) * T p
       + Kaw p * (command_sat_prev p - command_prev p) * T p)
  /\ err_prev p' = sp - m
  /\ deriv_prev p'
     = (sp - m - err_prev p + T_C p * deriv_prev p) / (T p + T_C p)
  /\ command_prev p' = pid_sum p m sp
  /\ command_sat_prev p' = command_sat p'.
Proof.
  intros Hdiv. unfold Step, pid_sum. pid_fields. rewrite Hdiv. cbv zeta.
  unfold rate_limit, saturate, Qgtb, Qltb.
  Qcases; pid_fields; repeat split; reflexivity.
Qed.

(** The stored command as two nested clamps. *)
Lemma Step_clamped (p : PID) (m sp : Q) :
  0 < T p -> 0 < T_C p -> 0 <= max_rate p -> min p <= max p ->
  command_sat (fst (Step p m sp))
  == clamp (command_sat_prev p - max_rate p * T p)
           (command_sat_prev p + max_rate p * T p)
           (clamp (min p) (max p) (pid_sum p m sp)).
Proof.
  intros Ht Hc Hr Hb.
  pose proof (positive_period p Ht Hc) as Hdiv.
  assert (Hrt : 0 <= max_rate p * T p) by (apply Qmult_le_0_compat; lra).
  unfold Step. pid_fields. rewrite Hdiv. cbv zeta. pid_fields.
  fold (pid_sum p m sp).
  match goal with
  | |- context [saturate ?a ?c] =>
      pose proof (saturate_clamp a c) as Hs;
      destruct (saturate_frame a c) as (Hprev & Hrate & HT & _ & _);
      set (q := saturate a c) in *
  end.
  pid_fields_all.
  rewrite rate_limit_clamp by (rewrite Hrate, HT; exact Hrt).
  rewrite Hprev, Hrate, HT.
  unfold clamp in *. rewrite (Hs Hb). reflexivity.
Qed.

(** X1. The command [Step] stores is the PID sum, clamped to
    [[min, max]], then clamped to within [max_rate * T] of the previous
    saturated command. *)
Theorem Step_closed_form (p : PID) (m sp : Q) :
  0 < T p -> 0 < T_C p -> 0 <= max_rate p -> min p <= max p ->
  command_sat (fst (Step p m sp))
  == clamp (command_sat_prev p - max_rate p * T p)
           (command_sat_prev p + max_rate p * T p)
           (clamp (min p) (max p) (pid_sum p m sp))
  /\ command_prev (fst (Step p m sp)) = pid_sum p m sp.
Proof.
  intros Ht Hc Hr Hb. split.
  - apply Step_clamped; assumption.
  - apply Step_state. apply positive_period; assumption.
Qed.

Lemma Step_closed_form_witness :
  command_sat (fst (Step pid0 40 50))
  == clamp (command_sat_prev pid0 - max_rate pid0 * T pid0)
           (command_sat_prev pid0 + max_rate pid0 * T pid0)
           (clamp (min pid0) (max pid0) (pid_sum pid0 40 50))
  /\ command_prev (fst (Step pid0 40 50)) = pid_sum pid0 40 50.
Proof.
  apply (Step_closed_form pid0 40 50); cbn; lra.
Defined.

(** Replace every [Qmin] and [Qmax] by a variable with its defining facts. *)
Ltac minmax :=
  repeat match goal with
         | |- context [Qmin ?a ?b] =>
             let x := fresh "mn" in
             pose proof (Q.min_spec a b); set (x := Qmin a b) in *; clearbody x
         | |- context [Qmax ?a ?b] =>
             let x := fresh "mx" in
             pose proof (Q.max_spec a b); set (x := Qmax a b) in *; clearbody x
         | H : context [Qmin ?a ?b] |- _ =>
             let x := fresh "mn" in
             pose proof (Q.min_spec a b); set (x := Qmin a b) in *; clearbody x
         | H : context [Qmax ?a ?b] |- _ =>
             let x := fresh "mx" in
             pose proof (Q.max_spec a b); set (x := Qmax a b) in *; clearbody x
         end.

(** X2. The rate limiter does not overshoot: the stored command lies
    between the previous saturated command and the clamped PID sum. *)
Theorem Step_between (p : PID) (m sp : Q) :
  0 < T p -> 0 < T_C p -> 0 <= max_rate p -> min p <= max p ->
  let target := clamp (min p) (max p) (pid_sum p m sp) in
  let out := command_sat (fst (Step p m sp)) in
  (command_sat_prev p <= target -> command_sat_prev p <= out <= target)
  /\ (target <= command_sat_prev p -> target <= out <= command_sat_prev p).
Proof.
  intros Ht Hc Hr Hb target out.
  assert (Hrt : 0 <= max_rate p * T p) by (apply Qmult_le_0_compat; lra).
  assert (E : out == clamp (command_sat_prev p - max_rate p * T p)
                           (command_sat_prev p + max_rate p * T p) target)
    by (apply Step_clamped; assumption).
  clearbody out target. unfold clamp in E.
  set (rt := max_rate p * T p) in *. clearbody rt.
  minmax. split; intros; lra.
Qed.

Lemma Step_between_witness :
  let target := clamp (min scenario) (max scenario) (pid_sum scenario 40 50) in
  let out := command_sat (fst (Step scenario 40 50)) in
  (command_sat_prev scenario <= target ->
   command_sat_prev scenario <= out <= target)
  /\ (target <= command_sat_prev scenario ->
      target <= out <= command_sat_prev scenario).
Proof.
  apply (Step_between scenario 40 50); cbn; lra.
Defined.

(** X3. A proportional controller (Ki, Kd, Kaw and the integral all
    zero) whose command [Kp * error] is inside [[min, max]] and within
    [max_rate * T] of the previous saturated command stores exactly that
    command, and its integral stays zero. *)
Theorem Step_proportional (p : PID) (m sp : Q) :
  0 < T p -> 0 < T_C p ->
  Ki p == 0 -> Kd p == 0 -> Kaw p == 0 -> integral p == 0 ->
  min p <= Kp p * (sp - m) <= max p ->
  Qabs (Kp p * (sp - m) - command_sat_prev p) <= max_rate p * T p ->
  command_sat (fst (Step p m sp)) == Kp p * (sp - m)
  /\ integral (fst (Step p m sp)) == 0.
Proof.
  intros Ht Hc HKi HKd HKaw Hint Hrange Hslew.
  pose proof (positive_period p Ht Hc) as Hdiv.
  apply Qabs_Qle_condition in Hslew.
  assert (Hsum : pid_sum p m sp == Kp p * (sp - m)).
  { unfold pid_sum. cbv zeta. rewrite HKi, HKd, HKaw, Hint. ring. }
  assert (Hb : min p <= max p) by lra.
  assert (Hr : 0 <= max_rate p * T p) by lra.
  split.
  - unfold Step. pid_fields. rewrite Hdiv. cbv zeta. pid_fields.
    fold (pid_sum p m sp).
    match goal with
    | |- context [saturate ?a ?c] =>
        pose proof (saturate_clamp a c) as Hs;
        destruct (saturate_frame a c) as (Hprev & Hrate & HT & _ & _);
        set (q := saturate a c) in *
    end.
    pid_fields_all. specialize (Hs Hb).
    rewrite rate_limit_clamp by (rewrite Hrate, HT; exact Hr).
    rewrite Hprev, Hrate, HT. unfold clamp in *. rewrite Hs.
    set (rt := max_rate p * T p) in *. clearbody rt.
    set (u := pid_sum p m sp) in *. clearbody u.
    minmax. lra.
  - destruct (Step_state p m sp Hdiv) as (Ei & _). cbv zeta in Ei.
    rewrite Ei, HKi, HKaw, Hint. ring.
Qed.

Lemma Step_proportional_witness :
  command_sat (fst (Step (init 1 0 0 0 1 10 10 0 0.5) 48 50)) == 1 * (50 - 48)
  /\ integral (fst (Step (init 1 0 0 0 1 10 10 0 0.5) 48 50)) == 0.
Proof.
  apply (Step_proportional (init 1 0 0 0 1 10 10 0 0.5) 48 50);
    cbn; try lra; reflexivity.
Defined.

Lemma Steps_cons (p : PID) (m sp : Q) (rest : list (Q * Q)) :
  Qeq_bool (T p + T_C p) 0 = false ->
  Steps p ((m, sp) :: rest) = Steps (fst (Step p m sp)) rest.
Proof.
  intros Hdiv. cbn [Steps].
  pose proof (Step_result p m sp) as H. rewrite Hdiv in H.
  destruct (Step p m sp) as [p' r]. cbn [fst snd] in *. subst r. reflexivity.
Qed.

(** One call with no error on a controller at rest. *)
Lemma Step_at_rest (p : PID) (m sp : Q) :
  0 < T p -> 0 < T_C p -> 0 <= max_rate p -> min p <= 0 <= max p ->
  at_rest p -> sp == m ->
  at_rest (fst (Step p m sp)) /\ command_sat (fst (Step p m sp)) == 0.
Proof.
  intros Ht Hc Hr Hb [Hi He Hd Hs Hp] Herr.
  pose proof (positive_period p Ht Hc) as Hdiv.
  assert (Hsum : pid_sum p m sp == 0).
  { unfold pid_sum. cbv zeta. rewrite Hi, He, Hd, Hs, Hp, Herr.
    field. lra. }
  assert (Hout : command_sat (fst (Step p m sp)) == 0).
  { rewrite Step_clamped by (assumption || lra).
    unfold clamp. rewrite Hsum, Hs.
    assert (Hrt : 0 <= max_rate p * T p) by (apply Qmult_le_0_compat; lra).
    set (rt := max_rate p * T p) in *. clearbody rt.
    minmax. lra. }
  split; [|exact Hout].
  destruct (Step_state p m sp Hdiv) as (Ei & Ee & Ed & Ec & Es).
  cbv zeta in *. constructor.
  - rewrite Ei, Hi, Hs, Hp, Herr. ring.
  - rewrite Ee, Herr. ring.
  - rewrite Ed, He, Hd, Herr. field. lra.
  - rewrite Es. exact Hout.
  - rewrite Ec. exact Hsum.
Qed.

(** X5. Equilibrium: a controller at rest (running state all zero, as
    after [__init__]) with 0 in its output range, called any number of
    times with the measurement on the setpoint, never raises, stays at rest
    and keeps its command at 0, whatever the gains. *)
Theorem Steps_equilibrium (inputs : list (Q * Q)) : forall p : PID,
  0 < T p -> 0 < T_C p -> 0 <= max_rate p -> min p <= 0 <= max p ->
  at_rest p -> command_sat p == 0 ->
  Forall (fun i => snd i == fst i) inputs ->
  snd (Steps p inputs) = Ok tt
  /\ at_rest (fst (Steps p inputs))
  /\ command_sat (fst (Steps p inputs)) == 0.
Proof.
  induction inputs as [|[m sp] rest IH]; intros p Ht Hc Hr Hb Hrest Hcmd Hin.
  - cbn. auto.
  - inversion Hin as [|? ? Hhd Htl]; subst. cbn [fst snd] in Hhd.
    rewrite Steps_cons by (apply positive_period; assumption).
    destruct (Step_at_rest p m sp Ht Hc Hr Hb Hrest Hhd) as [Hrest' Hcmd'].
    destruct (Step_frame p m sp)
      as (_ & _ & _ & _ & HTC & HT & Hmax & Hmin & Hrate).
    cbv zeta in *.
    apply IH; rewrite ?HTC, ?HT, ?Hmax, ?Hmin, ?Hrate; assumption.
Qed.

Lemma Steps_equilibrium_witness :
  snd (Steps pid0 [(50, 50); (20, 20)]) = Ok tt
  /\ at_rest (fst (Steps pid0 [(50, 50); (20, 20)]))
  /\ command_sat (fst (Steps pid0 [(50, 50); (20, 20)])) == 0.
Proof.
  apply (Steps_equilibrium [(50, 50); (20, 20)] pid0);
    [cbn; lra | cbn; lra | cbn; lra | cbn; lra
    | constructor; cbn; reflexivity | cbn; reflexivity |].
  apply Forall_cons; [reflexivity|].
  apply Forall_cons; [reflexivity|]. apply Forall_nil.
Defined.




End StepDynamics.

(* ------------------------------------------------------------------ *)
(** ** More on the loop of main.py *)

Section LoopFacts.
Import retuning.

Lemma Qfloor_unique (x : Q) (k : Z) :
  inject_Z k <= x -> x < inject_Z k + 1 -> Qfloor x = k.
Proof.
  intros Hlo Hhi.
  pose proof (Qfloor_le x) as Hf. pose proof (Qlt_floor x) as Hc.
  rewrite inject_Z_plus in Hc. change (inject_Z 1) with 1 in Hc.
  assert (H1 : (Qfloor x < k + 1)%Z).
  { rewrite Zlt_Qlt, inject_Z_plus. change (inject_Z 1) with 1. lra. }
  assert (H2 : (k < Qfloor x + 1)%Z).
  { rewrite Zlt_Qlt, inject_Z_plus. change (inject_Z 1) with 1. lra. }
  lia.
Qed.

(** X8. The optimization is due exactly when the history has more than
    10 entries and the elapsed time lies in the first [tuning_interval]
    (half a second) of a 5-second period, [5k <= t < 5k + 0.5] for an
    integer [k]; negative elapsed times included. *)
Theorem optimization_window (h : list Q) (t : Q) :
  optimization_due h t = true
  <-> (10 < length h)%nat
      /\ exists k : Z, 5 * inject_Z k <= t < 5 * inject_Z k + tuning_interval.
Proof.
  unfold optimization_due. rewrite andb_true_iff, Nat.ltb_lt, Qltb_lt.
  apply and_iff_compat_l. unfold tuning_interval. split.
  - intros H. exists (Qfloor (t / 5)).
    pose proof (pymod_range t 5 ltac:(lra)) as [Hlo _].
    unfold pymod in *. lra.
  - intros (k & Hlo & Hhi).
    assert (E : Qfloor (t / 5) = k).
    { apply Qfloor_unique.
      - apply Qle_shift_div_l; lra.
      - apply Qlt_shift_div_r; lra. }
    unfold pymod. rewrite E. lra.
Qed.

(** X9. [append_error] grows a history of fewer than 50 entries by one
    and keeps the length of any longer one, so a history that is already
    over 50 entries long is never cut back; the value appended is always
    the last entry. *)
Theorem append_error_shape (h : list Q) (e d : Q) :
  length (append_error h e)
  = (if (length h <? 50)%nat then S (length h) else length h)
  /\ last (append_error h e) d = e.
Proof.
  unfold append_error.
  assert (Hlen : length (h ++ [e]) = S (length h))
    by (rewrite length_app; cbn; lia).
  rewrite Hlen.
  destruct (Nat.ltb_spec 50 (S (length h))) as [H|H];
    destruct (Nat.ltb_spec (length h) 50) as [H'|H']; try lia.
  - split.
    + destruct h as [|a h]; cbn in *; [lia|]. rewrite length_app. cbn. lia.
    + destruct h as [|a h]; cbn [length] in *; [lia|].
      cbn [app tl]. apply last_last.
  - split; [exact Hlen|apply last_last].
Qed.

Lemma sq_nonneg (d : Q) : 0 <= d * d.
Proof.
  destruct (Qlt_le_dec d 0) as [H|H].
  - assert (E : d * d == (- d) * (- d)) by ring. rewrite E.
    apply Qmult_le_0_compat; lra.
  - apply Qmult_le_0_compat; lra.
Qed.

Lemma sum_squared_error_nonneg (sp : Q) (hist : list Q) :
  0 <= sum_squared_error sp hist
  /\ (sum_squared_error sp hist == 0 <-> Forall (fun temp => temp == sp) hist).
Proof.
  induction hist as [|temp rest [IH1 IH2]]; cbn [sum_squared_error].
  - split; [lra|]. split; [constructor|reflexivity].
  - assert (Hsq : (sp - temp) ^ 2 == (sp - temp) * (sp - temp)) by ring.
    pose proof (sq_nonneg (sp - temp)) as Hge.
    rewrite Hsq. split; [lra|]. split.
    + intros H. constructor.
      * assert (H0 : (sp - temp) * (sp - temp) == 0) by lra.
        destruct (Qmult_integral _ _ H0); lra.
      * apply IH2. lra.
    + intros H. inversion H as [|? ? Hhd Htl]; subst.
      apply IH2 in Htl. rewrite Htl, Hhd. ring.
Qed.

(** X10. The cost is never negative, and it is zero exactly when every
    recorded temperature equals the setpoint. *)
Theorem pid_cost_nonneg (temperature_history : list Q) (setpoint : Q)
    (c : gains) (p : PID) :
  0 <= snd (pid_cost temperature_history setpoint c p)
  /\ (snd (pid_cost temperature_history setpoint c p) == 0
      <-> Forall (fun temp => temp == setpoint) temperature_history).
Proof.
  assert (E : snd (pid_cost temperature_history setpoint c p)
              == sum_squared_error setpoint temperature_history).
  { destruct c as [[kp ki] kd]. cbn [pid_cost snd]. rewrite cost_fold. lra. }
  rewrite E. apply sum_squared_error_nonneg.
Qed.

(** X11. In a pass that retunes, the cost the minimizer is given is the
    sum of the squares of the errors stored in the history, whatever the
    candidate. *)
Theorem retune_cost_is_squared_errors (error_history : list Q) (c : gains)
    (p : PID) :
  snd (pid_cost (reconstruct error_history) target_temp c p)
  == sum_squares error_history.
Proof.
  assert (E : snd (pid_cost (reconstruct error_history) target_temp c p)
              == sum_squared_error target_temp (reconstruct error_history)).
  { destruct c as [[kp ki] kd]. cbn [pid_cost snd]. rewrite cost_fold. lra. }
  rewrite E. clear E.
  induction error_history as [|e rest IH];
    cbn [reconstruct map sum_squared_error sum_squares]; [reflexivity|].
  unfold reconstruct in IH. rewrite IH. ring.
Qed.

(** X12. Against [pid_cost] a minimizer learns one number only: every
    cost it asks for is the same, so what it returns (or raises) is what it
    comes to when answered with that number, and does not depend on the
    controller. *)
Theorem minimizer_sees_one_cost (hist : list Q) (sp : Q) (m : minimizer) :
  forall (p : PID) (c0 : gains) (p0 : PID),
    snd (run_minimizer (pid_cost hist sp) m p)
    = answer (snd (pid_cost hist sp c0 p0)) m.
Proof.
  induction m as [x ok|e|c k IH]; intros p c0 p0;
    cbn [run_minimizer answer]; try reflexivity.
  destruct (pid_cost hist sp c p) as [p' v] eqn:E.
  assert (Ev : v = snd (pid_cost hist sp c0 p0)).
  { destruct c as [[a b] d], c0 as [[a0 b0] d0].
    cbn [pid_cost] in E. inversion E. reflexivity. }
  rewrite Ev. apply IH.
Qed.

End LoopFacts.

(* ------------------------------------------------------------------ *)
(** ** Properties of daq/sensors.py *)

Section SensorFacts.
Import daq.

Lemma key_eqb_eq (a b : key) : key_eqb a b = true <-> a = b.
Proof.
  destruct a as [x|x], b as [y|y]; cbn [key_eqb].
  - rewrite Z.eqb_eq. split; congruence.
  - split; discriminate.
  - split; discriminate.
  - rewrite String.eqb_eq. split; congruence.
Qed.

Lemma dict_get_set (d : dict) (k k' : key) (v : Sensor) :
  dict_get (dict_set d k v) k'
  = if key_eqb k k' then Some v else dict_get d k'.
Proof.
  induction d as [|[k0 v0] d IH]; cbn [dict_set dict_get].
  - destruct (key_eqb k k'); reflexivity.
  - destruct (key_eqb k0 k) eqn:E0; cbn [dict_get].
    + apply key_eqb_eq in E0. subst k0.
      destruct (key_eqb k k'); reflexivity.
    + rewrite IH. destruct (key_eqb k0 k') eqn:E1; [|reflexivity].
      apply key_eqb_eq in E1. subst k0.
      destruct (key_eqb k k') eqn:E2; [|reflexivity].
      apply key_eqb_eq in E2. subst k'.
      assert (key_eqb k k = true) by now apply key_eqb_eq.
      congruence.
Qed.

Lemma dict_get_comprehension (channels : list key) (k : key) : forall d : dict,
  dict_get (fold_left (fun d channel => dict_set d channel (Sensor_init channel))
                      channels d) k
  = if existsb (fun c => key_eqb c k) channels
    then Some (Sensor_init k) else dict_get d k.
Proof.
  induction channels as [|c channels IH]; intros d; cbn [fold_left existsb];
    [reflexivity|].
  rewrite IH, dict_get_set.
  destruct (existsb _ channels); cbn; [rewrite orb_true_r; reflexivity|].
  rewrite orb_false_r. destruct (key_eqb c k) eqn:E; [|reflexivity].
  apply key_eqb_eq in E. subst c. reflexivity.
Qed.

(** X14. On a [Sensors] object just constructed, [get_sensor_data]
    returns the five default readings (all 0) for exactly the channels
    given to the constructor; for any other channel, and for every channel
    when the constructor was called without a list, it logs an error and
    ends in [exit()]. *)
Theorem get_sensor_data_after_init (channels : option (list key)) (k : key) :
  let configured := match channels with None => [] | Some l => l end in
  let r := get_sensor_data (Sensors_init channels) k in
  (In k configured ->
   r = (Sensors_init channels, Returned [0; 0; 0; 0; 0]))
  /\ (~ In k configured ->
      snd r = Exited
      /\ log (fst r)
         = log (Sensors_init channels)
           ++ [(ERROR, "Sensor data requested for invalid channel"%string)]).
Proof.
  cbv zeta. unfold get_sensor_data, Sensors_init. cbn [sensors log].
  rewrite dict_get_comprehension. cbn [dict_get].
  set (l := match channels with None => [] | Some l => l end).
  destruct (existsb (fun c => key_eqb c k) l) eqn:E.
  - apply existsb_exists in E. destruct E as (c & Hin & Hc).
    apply key_eqb_eq in Hc. subst c. split; [reflexivity|tauto].
  - split; [|auto]. intros Hin.
    assert (existsb (fun c => key_eqb c k) l = true).
    { apply existsb_exists. exists k. split; [exact Hin|].
      now apply key_eqb_eq. }
    congruence.
Qed.

Lemma get_sensor_data_after_init_witness :
  get_sensor_data (Sensors_init (Some [IntKey 0; IntKey 3])) (IntKey 3)
  = (Sensors_init (Some [IntKey 0; IntKey 3]), Returned [0; 0; 0; 0; 0])
  /\ snd (get_sensor_data (Sensors_init None) (IntKey 3)) = Exited.
Proof.
  split.
  - apply (get_sensor_data_after_init (Some [IntKey 0; IntKey 3]) (IntKey 3)).
    cbn. auto.
  - apply (get_sensor_data_after_init None (IntKey 3)). cbn. tauto.
Defined.

(** X15. The temperature read of the loop (main.py, lines 103-104) never
    yields a temperature, whatever the [Sensors] object holds: the lookup
    of the channel ["temperature"] ends in [exit()], or it returns a tuple
    and subscripting the tuple with a string is a [TypeError].  With the
    module's [sensors = Sensors()] it is the [exit()]. *)
Theorem read_temperature_never_returns (s : Sensors) :
  (snd (read_temperature s) = ReadExit
   \/ snd (read_temperature s) = ReadTypeError)
  /\ (forall x, snd (read_temperature s) <> Temperature x)
  /\ read_temperature (Sensors_init None)
     = (mkSensors []
          [(INFO, "Sensors initialized with channels"%string);
           (ERROR, "Sensor data requested for invalid channel"%string)],
        ReadExit).
Proof.
  assert (H : snd (read_temperature s) = ReadExit
              \/ snd (read_temperature s) = ReadTypeError).
  { unfold read_temperature, get_sensor_data.
    destruct (dict_get (sensors s) (StrKey "temperature")); cbn; auto. }
  split; [exact H|]. split; [|reflexivity].
  intros x Hx. destruct H as [H|H]; congruence.
Qed.

End SensorFacts.

(* ------------------------------------------------------------------ *)
(** ** Properties of power_supply/power_supply_device.py *)

Section PowerSupplyFacts.
Import power_supply.

(** X16. On a resource that carries out every write, [set_output("ch1")]
    returns with channel 1 marked on and channel 2 marked off, while
    [set_output("ch2")] returns with channel 2 marked on and leaves the
    mark of channel 1 as it was: after ["ch1"] then ["ch2"] both are marked
    on, after ["ch2"] then ["ch1"] only channel 1 is. *)
Theorem set_output_marks (self : PowerSupply) (v c v' c' : Q) :
  well_formed self ->
  let first := set_output reliable "ch1" v c self in
  let second := set_output reliable "ch2" v c self in
  snd first = None
  /\ ch_status (fst first) = (1, 0, status self I2)%Z
  /\ snd second = None
  /\ ch_status (fst second) = (status self I0, 1, 0)%Z
  /\ ch_status (fst (set_output reliable "ch2" v' c' (fst first))) = (1, 1, 0)%Z
  /\ ch_status (fst (set_output reliable "ch1" v' c' (fst second))) = (1, 0, 0)%Z.
Proof.
  intros Hwf.
  pose proof (Hwf I0) as H0. pose proof (Hwf I1) as H1.
  pose proof (Hwf I2) as H2.
  destruct self as [c1 c2 c3 [[a b] d] lg tr]. cbn [status ch_status] in *.
  destruct H0 as [-> | ->], H1 as [-> | ->], H2 as [-> | ->];
    cbv zeta; repeat split; reflexivity.
Qed.

Lemma set_output_marks_witness :
  let first := set_output reliable "ch1" 5 2 PowerSupply_init in
  let second := set_output reliable "ch2" 5 2 PowerSupply_init in
  snd first = None
  /\ ch_status (fst first) = (1, 0, status PowerSupply_init I2)%Z
  /\ snd second = None
  /\ ch_status (fst second) = (status PowerSupply_init I0, 1, 0)%Z
  /\ ch_status (fst (set_output reliable "ch2" 3 1 (fst first))) = (1, 1, 0)%Z
  /\ ch_status (fst (set_output reliable "ch1" 3 1 (fst second))) = (1, 0, 0)%Z.
Proof.
  apply (set_output_marks PowerSupply_init 5 2 3 1).
  intros i. destruct i; cbn; auto.
Defined.

Lemma last_switch_snoc (c : PowerSupplyChannel) (ops : list op) (o : op) :
  last_switch c (ops ++ [o])
  = match o with
    | Write (Text t) =>
        if String.eqb t (on_command c) then Some true
        else if String.eqb t (off_command c) then Some false
        else last_switch c ops
    | _ => last_switch c ops
    end.
Proof. unfold last_switch. rewrite fold_left_app. reflexivity. Qed.

(** Unfold the pieces of a method. *)
Ltac unfold_method :=
  cbv beta iota zeta delta
      [seq_action when set_status write perform try_or_exit
       turn_off_all end_ set_output do_call
       log_info log_error emit_record fst snd status
       ch1 ch2 ch3 ch_status log io off on
       Z.eqb Pos.eqb].

(** Case analysis on every answer of the resource that the goal asks for. *)
Ltac answers accepts :=
  repeat match goal with
         | |- context [accepts ?l ?o] =>
             let E := fresh "E" in
             destruct (accepts l o) eqn:E; cbv beta iota
         end.

(** [set_output] keeps [tracks], whatever the resource answers. *)
Lemma set_output_tracks (accepts : list op -> op -> bool) (ch : string)
    (v c : Q) (self : PowerSupply) :
  tracks self -> tracks (fst (set_output accepts ch v c self)).
Proof.
  intros [Hc1 Hc2 Hc3 Hwf T0 T1 T2].
  pose proof (Hwf I0) as H0. pose proof (Hwf I1) as H1.
  destruct self as [c1 c2 c3 [[a b] d] lg tr].
  cbn [status ch_status ch1 ch2 ch3 io] in *. subst c1 c2 c3 d.
  unfold set_output.
  destruct (String.eqb ch "ch1");
    [|destruct (String.eqb ch "ch2"); [|destruct (String.eqb ch "ch3")]];
    destruct H0 as [-> | ->], H1 as [-> | ->];
    unfold_method; answers accepts.
  all: constructor;
     [reflexivity | reflexivity | reflexivity
     | intros i; destruct i; cbn; auto
     | cbn [status ch_status io]; rewrite ?last_switch_snoc; cbn
     | cbn [status ch_status io]; rewrite ?last_switch_snoc; cbn
     | reflexivity].
  all: intuition congruence.
Qed.

Lemma PowerSupply_init_tracks : tracks PowerSupply_init.
Proof.
  constructor; try reflexivity.
  - intros i. destruct i; cbn; auto.
  - cbn. split; discriminate.
  - cbn. split; discriminate.
Qed.

Lemma set_outputs_track (accepts : list op -> op -> bool) (calls : list call) :
  forall self : PowerSupply,
    forallb is_set_output calls = true -> tracks self ->
    tracks (after_calls accepts self calls).
Proof.
  unfold after_calls.
  induction calls as [|k calls IH]; intros self Hall Hself; cbn [fold_left];
    [exact Hself|].
  cbn [forallb] in Hall. apply andb_true_iff in Hall as [Hk Hall].
  apply IH; [exact Hall|].
  destruct k; try discriminate. cbn [do_call].
  apply set_output_tracks. exact Hself.
Qed.

(** X17. However the resource answers (writes may be refused at any
    point), after any sequence of [set_output] calls on a new object the
    marks in [ch_status] agree with the resource: channel 1 is marked on
    exactly when the last switch command it carried out for CH1 was ON,
    the same for channel 2, and the mark of channel 3 is 0. *)
Theorem set_output_keeps_track (accepts : list op -> op -> bool)
    (calls : list call) :
  forallb is_set_output calls = true ->
  tracks (after_calls accepts PowerSupply_init calls).
Proof.
  intros Hall. apply set_outputs_track; [exact Hall|].
  exact PowerSupply_init_tracks.
Qed.

Lemma set_output_keeps_track_witness :
  tracks (after_calls reliable PowerSupply_init
            [SetOutput "ch1" 5 2; SetOutput "ch2" 3 1; SetOutput "ch3" 0 0]).
Proof.
  apply (set_output_keeps_track reliable). reflexivity.
Defined.

(** The invariant behind X18: the channels of ps_config.py, marks that are
    0 or 1, channel 3 marked off, and no ON command for CH3 carried out. *)
Lemma do_call_channel3 (accepts : list op -> op -> bool) (k : call)
    (self : PowerSupply) :
  (ch1 self = CH1 /\ ch2 self = CH2 /\ ch3 self = CH3) ->
  well_formed self -> status self I2 = 0%Z ->
  ~ In (Write (Text (on_command CH3))) (io self) ->
  let self' := fst (do_call accepts k self) in
  (ch1 self' = CH1 /\ ch2 self' = CH2 /\ ch3 self' = CH3)
  /\ well_formed self' /\ status self' I2 = 0%Z
  /\ ~ In (Write (Text (on_command CH3))) (io self').
Proof.
  intros (Hc1 & Hc2 & Hc3) Hwf H2 Hin.
  pose proof (Hwf I0) as H0. pose proof (Hwf I1) as H1.
  destruct self as [c1 c2 c3 [[a b] d] lg tr].
  cbn [status ch_status ch1 ch2 ch3 io] in *. subst c1 c2 c3 d.
  destruct k as [ch v c| |]; cbv zeta; unfold do_call;
    [unfold set_output;
     destruct (String.eqb ch "ch1");
     [|destruct (String.eqb ch "ch2"); [|destruct (String.eqb ch "ch3")]]
    | | ];
    destruct H0 as [-> | ->], H1 as [-> | ->];
    unfold_method; answers accepts.
  all: split; [auto|]; split; [intros i; destruct i; cbn; auto|].
  all: split; [reflexivity|].
  all: rewrite ?in_app_iff; cbn [In];
    intuition (try discriminate; try congruence).
Qed.

(** X18. No sequence of calls of [set_output], [turn_off_all] and [end]
    on a new object ever has the resource switch the output of channel 3
    on, however the resource answers, and [ch_status[2]] stays 0:
    [set_output("ch3")] only sends the APPL command. *)
Theorem channel3_never_switched_on (accepts : list op -> op -> bool)
    (calls : list call) :
  let self := after_calls accepts PowerSupply_init calls in
  ~ In (Write (Text ":OUTP CH3,ON")) (io self)
  /\ status self I2 = 0%Z
  /\ last_switch CH3 (io self) <> Some true.
Proof.
  cbv zeta.
  assert (H : forall self : PowerSupply,
             (ch1 self = CH1 /\ ch2 self = CH2 /\ ch3 self = CH3) ->
             well_formed self -> status self I2 = 0%Z ->
             ~ In (Write (Text (on_command CH3))) (io self) ->
             let self' := after_calls accepts self calls in
             status self' I2 = 0%Z
             /\ ~ In (Write (Text (on_command CH3))) (io self')).
  { unfold after_calls.
    induction calls as [|k calls IH]; intros self Hc Hwf H2 Hin;
      cbn [fold_left]; [auto|].
    destruct (do_call_channel3 accepts k self Hc Hwf H2 Hin)
      as (Hc' & Hwf' & H2' & Hin').
    apply IH; assumption. }
  destruct (H PowerSupply_init) as [H2 Hin].
  - repeat split.
  - intros i. destruct i; cbn; auto.
  - reflexivity.
  - cbn. tauto.
  - split; [exact Hin|]. split; [exact H2|].
    cbv zeta in *.
    generalize dependent (io (after_calls accepts PowerSupply_init calls)).
    intros ops Hops. clear -Hops.
    induction ops as [|o ops IH] using rev_ind; [discriminate|].
    rewrite last_switch_snoc.
    rewrite in_app_iff in Hops. cbn [In] in Hops.
    destruct o as [[t|? ? ?]|]; try (apply IH; tauto).
    destruct (String.eqb t (on_command CH3)) eqn:E.
    + apply String.eqb_eq in E. subst t. exfalso. apply Hops. right. now left.
    + destruct (String.eqb t (off_command CH3)); [discriminate|].
      apply IH. tauto.
Qed.

(** X20. [turn_off_all] never changes [ch_status].  So when channel 1 is
    marked on and channel 2 off, [turn_off_all] followed by
    [set_output("ch1")] sends the three OFF commands and the APPL command
    but no ON command: the mark still says on while the last switch
    command for the channel was OFF. *)
Theorem turn_off_all_keeps_marks (accepts : list op -> op -> bool)
    (self : PowerSupply) (v c : Q) :
  ch_status (fst (turn_off_all accepts self)) = ch_status self
  /\ (status self I0 = 1%Z -> status self I1 = 0%Z ->
      ch1 self = CH1 /\ ch2 self = CH2 /\ ch3 self = CH3 ->
      let self' :=
        fst (set_output reliable "ch1" v c (fst (turn_off_all reliable self))) in
      io self'
      = io self ++ [Write (Text ":OUTP CH1,OFF"); Write (Text ":OUTP CH2,OFF");
                    Write (Text ":OUTP CH3,OFF"); Write (Appl "CH1" v c)]
      /\ status self' I0 = 1%Z
      /\ last_switch CH1 (io self') = Some false).
Proof.
  destruct self as [c1 c2 c3 [[a b] d] lg tr]. split.
  - unfold_method. answers accepts; reflexivity.
  - cbn [status ch_status ch1 ch2 ch3]. intros -> -> (-> & -> & ->).
    cbv zeta.
    assert (E : io (fst (set_output reliable "ch1" v c
                           (fst (turn_off_all reliable
                                   (mkPowerSupply CH1 CH2 CH3 (1, 0, d)%Z lg tr)))))
                = tr ++ [Write (Text ":OUTP CH1,OFF"); Write (Text ":OUTP CH2,OFF");
                         Write (Text ":OUTP CH3,OFF"); Write (Appl "CH1" v c)]).
    { cbn. rewrite <- !app_assoc. reflexivity. }
    split; [exact E|]. split; [reflexivity|].
    rewrite E.
    change (tr ++ [Write (Text ":OUTP CH1,OFF"); Write (Text ":OUTP CH2,OFF");
                   Write (Text ":OUTP CH3,OFF"); Write (Appl "CH1" v c)])
      with (tr ++ [Write (Text ":OUTP CH1,OFF")]
               ++ [Write (Text ":OUTP CH2,OFF")]
               ++ [Write (Text ":OUTP CH3,OFF")]
               ++ [Write (Appl "CH1" v c)]).
    rewrite !app_assoc, !last_switch_snoc. reflexivity.
Qed.

Lemma turn_off_all_keeps_marks_witness :
  let self := fst (set_output reliable "ch1" 5 2 PowerSupply_init) in
  let self' :=
    fst (set_output reliable "ch1" 3 1 (fst (turn_off_all reliable self))) in
  io self'
  = io self ++ [Write (Text ":OUTP CH1,OFF"); Write (Text ":OUTP CH2,OFF");
                Write (Text ":OUTP CH3,OFF"); Write (Appl "CH1" 3 1)]
  /\ status self' I0 = 1%Z
  /\ last_switch CH1 (io self') = Some false.
Proof.
  intros self.
  apply (turn_off_all_keeps_marks reliable self 3 1);
    [reflexivity | reflexivity | repeat split].
Defined.

(** X21. [end] either returns, having had the resource carry out the
    three OFF commands and then the close, in that order, or it ends in
    [exit()] after logging an error, and then only some of the OFF commands
    were carried out and the resource was not closed; a refused operation
    never escapes as an exception.  [ch_status] is not changed. *)
Theorem end_outcome (accepts : list op -> op -> bool) (self : PowerSupply) :
  let r := end_ accepts self in
  let offs := [Write (Text (off (ch1 self))); Write (Text (off (ch2 self)));
               Write (Text (off (ch3 self)))] in
  ch_status (fst r) = ch_status self
  /\ ((snd r = None
       /\ io (fst r) = io self ++ offs ++ [Close]
       /\ log (fst r)
          = log self ++ [(INFO, "Turned off all channels"%string);
                         (INFO, "Power supply connection closed."%string)])
      \/ (snd r = Some SystemExit
          /\ (exists n, (n <= 3)%nat /\ io (fst r) = io self ++ firstn n offs)
          /\ (exists l msg, log (fst r) = l ++ [(ERROR, msg)]))).
Proof.
  destruct self as [c1 c2 c3 st lg tr]. cbv zeta.
  unfold_method. answers accepts; (split; [reflexivity|]).
  - left. rewrite <- !app_assoc. repeat split.
  - right. split; [reflexivity|]. split.
    + exists 3%nat. split; [lia|]. rewrite <- !app_assoc. reflexivity.
    + eexists. eexists. reflexivity.
  - right. split; [reflexivity|]. split.
    + exists 2%nat. split; [lia|]. rewrite <- !app_assoc. reflexivity.
    + eexists. eexists. reflexivity.
  - right. split; [reflexivity|]. split.
    + exists 1%nat. split; [lia|]. reflexivity.
    + eexists. eexists. reflexivity.
  - right. split; [reflexivity|]. split.
    + exists 0%nat. split; [lia|]. cbn. rewrite app_nil_r. reflexivity.
    + eexists. eexists. reflexivity.
Qed.

(** [set_output] never has channel 1 switched off, and keeps its mark
    once it is on. *)
Lemma set_output_keeps_channel1 (accepts : list op -> op -> bool) (ch : string)
    (v c : Q) (self : PowerSupply) :
  tracks self ->
  let self' := fst (set_output accepts ch v c self) in
  (~ In (Write (Text ":OUTP CH1,OFF")) (io self) ->
   ~ In (Write (Text ":OUTP CH1,OFF")) (io self'))
  /\ (status self I0 = 1%Z -> status self' I0 = 1%Z).
Proof.
  intros [Hc1 Hc2 Hc3 Hwf _ _ T2].
  pose proof (Hwf I0) as H0. pose proof (Hwf I1) as H1.
  destruct self as [c1 c2 c3 [[a b] d] lg tr].
  cbn [status ch_status ch1 ch2 ch3 io] in *. subst c1 c2 c3 d.
  cbv zeta. unfold set_output.
  destruct (String.eqb ch "ch1");
    [|destruct (String.eqb ch "ch2"); [|destruct (String.eqb ch "ch3")]];
    destruct H0 as [-> | ->], H1 as [-> | ->];
    unfold_method; answers accepts.
  all: split; [|intros; first [reflexivity | discriminate | assumption]].
  all: rewrite ?in_app_iff; cbn [In];
    intuition (try discriminate; try congruence).
Qed.

(** X23. [set_output] never switches channel 1 off: in any sequence of
    [set_output] calls on a new object, however the resource answers, no
    OFF command for CH1 is sent, and once channel 1 is marked on it stays
    marked on through every later [set_output], those for ["ch2"]
    included. *)
Theorem channel1_stays_on (accepts : list op -> op -> bool)
    (before later : list call) :
  forallb is_set_output before = true ->
  forallb is_set_output later = true ->
  let self := after_calls accepts PowerSupply_init before in
  let self' := after_calls accepts PowerSupply_init (before ++ later) in
  ~ In (Write (Text ":OUTP CH1,OFF")) (io self')
  /\ (status self I0 = 1%Z -> status self' I0 = 1%Z).
Proof.
  intros Hb Hl. cbv zeta.
  assert (H : forall (calls : list call) (self : PowerSupply),
             forallb is_set_output calls = true -> tracks self ->
             (~ In (Write (Text ":OUTP CH1,OFF")) (io self) ->
              ~ In (Write (Text ":OUTP CH1,OFF"))
                   (io (after_calls accepts self calls)))
             /\ (status self I0 = 1%Z ->
                 status (after_calls accepts self calls) I0 = 1%Z)).
  { unfold after_calls.
    induction calls as [|k calls IH]; intros self Hall Ht; cbn [fold_left];
      [tauto|].
    cbn [forallb] in Hall. apply andb_true_iff in Hall as [Hk Hall].
    destruct k as [ch v c| |]; try discriminate. cbn [do_call].
    destruct (set_output_keeps_channel1 accepts ch v c self Ht) as [K1 K2].
    destruct (IH (fst (set_output accepts ch v c self)) Hall
                 (set_output_tracks accepts ch v c self Ht)) as [I1' I2'].
    cbv zeta in *. tauto. }
  assert (Hall : forallb is_set_output (before ++ later) = true).
  { rewrite forallb_app, Hb, Hl. reflexivity. }
  split.
  - apply (H (before ++ later) PowerSupply_init Hall PowerSupply_init_tracks).
    cbn. tauto.
  - unfold after_calls at 2. rewrite fold_left_app.
    fold (after_calls accepts PowerSupply_init before).
    apply (H later); [exact Hl|].
    apply set_outputs_track; [exact Hb|exact PowerSupply_init_tracks].
Qed.

Lemma channel1_stays_on_witness :
  let self := after_calls reliable PowerSupply_init [SetOutput "ch1" 0 0] in
  let self' := after_calls reliable PowerSupply_init
                 ([SetOutput "ch1" 0 0]
                  ++ [SetOutput "ch2" 0 0; SetOutput "ch1" 0 0;
                      SetOutput "ch2" 0 0]) in
  ~ In (Write (Text ":OUTP CH1,OFF")) (io self')
  /\ (status self I0 = 1%Z -> status self' I0 = 1%Z).
Proof.
  apply (channel1_stays_on reliable); reflexivity.
Defined.

End PowerSupplyFacts.

(* ------------------------------------------------------------------ *)
(** ** Properties of utils/logging_util.py *)

Section LoggerFacts.
Import logging_util.
Context {Level : Type}.

(** X22. However often and in whatever order loggers are set up in a
    fresh process, no logger gets a second handler: a logger that was set
    up (under its name, or as the root logger under [""] or ["root"]) has
    exactly one handler and the level of its last set-up; one that was not
    has no handler and its level untouched. *)
Theorem setup_logger_once (calls : list (string * Level)) (name : string) :
  getLogger (setup_all calls no_loggers) name
  = match last_level calls name with
    | Some lvl =>
        mkLogger ["%(asctime)s - %(name)s - %(levelname)s - %(message)s"%string]
                 (Some lvl)
    | None => mkLogger [] None
    end.
Proof.
  unfold getLogger.
  induction calls as [|[n lvl] calls IH] using rev_ind; [reflexivity|].
  unfold setup_all, last_level in *. rewrite !fold_left_app.
  cbn [fold_left fst snd]. unfold _setup_logger at 1, getLogger.
  destruct (String.eqb (logger_of name) (logger_of n)) eqn:E; [|exact IH].
  apply String.eqb_eq in E.
  assert (IHn : fold_left
                  (fun r call => _setup_logger (fst call) (snd call) r)
                  calls no_loggers (logger_of n)
                = match fold_left
                          (fun found call =>
                             if String.eqb (logger_of name) (logger_of (fst call))
                             then Some (snd call) else found) calls None with
                  | Some lvl0 =>
                      mkLogger
                        ["%(asctime)s - %(name)s - %(levelname)s - %(message)s"%string]
                        (Some lvl0)
                  | None => mkLogger [] None
                  end).
  { rewrite <- E. exact IH. }
  rewrite IHn.
  destruct (fold_left _ calls None); reflexivity.
Qed.

End LoggerFacts.

(* ------------------------------------------------------------------ *)
(** ** Properties of test_scripts/oscillating_power_test.py *)

Section OscillationFacts.
Import power_supply oscillating_power_test.

(** An oscillation from the state every oscillation leaves. *)
Lemma oscillation_step (lg : list (main.level * string)) (tr : list op) :
  let power := mkPowerSupply CH1 CH2 CH3 (1, 1, 0)%Z lg tr in
  cycle reliable 0 power
  = (mkPowerSupply CH1 CH2 CH3 (1, 0, 0)%Z lg
       (tr ++ [Write (Text ":OUTP CH2,OFF"); Write (Appl "CH1" 0 0)]),
     Completed)
  /\ cycle reliable 1
       (mkPowerSupply CH1 CH2 CH3 (1, 0, 0)%Z lg
          (tr ++ [Write (Text ":OUTP CH2,OFF"); Write (Appl "CH1" 0 0)]))
     = (mkPowerSupply CH1 CH2 CH3 (1, 1, 0)%Z lg (tr ++ next_oscillation),
        Completed).
Proof.
  cbv zeta. split.
  - cbn. rewrite <- !app_assoc. reflexivity.
  - cbn. rewrite <- !app_assoc. reflexivity.
Qed.

Lemma oscillate_steady (n : nat) : forall (lg : list (main.level * string))
    (tr : list op),
  oscillate reliable n (mkPowerSupply CH1 CH2 CH3 (1, 1, 0)%Z lg tr)
  = (mkPowerSupply CH1 CH2 CH3 (1, 1, 0)%Z lg
       (tr ++ concat (repeat next_oscillation n)),
     Completed).
Proof.
  induction n as [|n IH]; intros lg tr.
  - cbn [oscillate repeat concat]. rewrite app_nil_r. reflexivity.
  - destruct (oscillation_step lg tr) as [E0 E1]. cbv zeta in *.
    cbn [oscillate]. rewrite E0, E1, IH.
    cbn [repeat concat]. rewrite app_assoc. reflexivity.
Qed.

(** X24. The oscillation test on an instrument that carries out every
    write: the first oscillation applies 0 V and 0 A to CH1 and CH2 and
    switches both on; each later oscillation switches CH2 off, applies 0 V
    and 0 A to CH1 and to CH2, and switches CH2 on again.  CH1 is never
    switched off, every voltage and current applied is 0, and the run ends
    with both channels marked on.  A task other than 0 and 1 raises
    [ValueError] before anything is sent. *)
Theorem oscillate_trace (n : nat) (task : Z) (power : PowerSupply)
    (accepts : list op -> op -> bool) :
  oscillate reliable (S n) PowerSupply_init
  = (mkPowerSupply CH1 CH2 CH3 (1, 1, 0)%Z (log PowerSupply_init)
       (first_oscillation ++ concat (repeat next_oscillation n)),
     Completed)
  /\ (task <> 0%Z -> task <> 1%Z -> cycle accepts task power = (power, ValueError)).
Proof.
  split.
  - cbn [oscillate].
    assert (E0 : cycle reliable 0 PowerSupply_init
                 = (mkPowerSupply CH1 CH2 CH3 (1, 0, 0)%Z (log PowerSupply_init)
                      [Write (Appl "CH1" 0 0); Write (Text ":OUTP CH1,ON")],
                    Completed)) by reflexivity.
    rewrite E0.
    assert (E1 : cycle reliable 1
                   (mkPowerSupply CH1 CH2 CH3 (1, 0, 0)%Z (log PowerSupply_init)
                      [Write (Appl "CH1" 0 0); Write (Text ":OUTP CH1,ON")])
                 = (mkPowerSupply CH1 CH2 CH3 (1, 1, 0)%Z (log PowerSupply_init)
                      first_oscillation,
                    Completed)) by reflexivity.
    rewrite E1. apply oscillate_steady.
  - intros H0 H1. unfold cycle.
    apply Z.eqb_neq in H0, H1. rewrite H0, H1. reflexivity.
Qed.

Lemma oscillate_trace_witness :
  cycle reliable 2 PowerSupply_init = (PowerSupply_init, ValueError).
Proof.
  apply (oscillate_trace 9 2 PowerSupply_init reliable); discriminate.
Defined.

End OscillationFacts.

(* ------------------------------------------------------------------ *)
(** ** The rate limit in binary64 *)

Section Binary64Facts.
#[local] Set Warnings "-inexact-float".

Ltac b64_fields :=
  cbn [binary64.Kp binary64.Ki binary64.Kd binary64.Kaw binary64.T_C
       binary64.T binary64.max binary64.min binary64.max_rate
       binary64.integral binary64.err_prev binary64.deriv_prev
       binary64.command_sat_prev binary64.command_prev binary64.command_sat
       binary64.set_Kp binary64.set_Ki binary64.set_Kd binary64.set_integral
       binary64.set_err_prev binary64.set_deriv_prev
       binary64.set_command_sat_prev binary64.set_command_prev
       binary64.set_command_sat fst snd] in *.

(** What a call of [Step] that does not raise leaves behind. *)
Lemma Step_binary64 (p : binary64.PID) (m sp : float) :
  PrimFloat.eqb (binary64.T p + binary64.T_C p) 0 = false ->
  let p' := fst (binary64.Step p m sp) in
  snd (binary64.Step p m sp) = Ok PyNone
  /\ binary64.command_sat_prev p' = binary64.command_sat p'
  /\ binary64.T p' = binary64.T p /\ binary64.T_C p' = binary64.T_C p
  /\ binary64.max_rate p' = binary64.max_rate p
  /\ binary64.held (binary64.max_rate p) (binary64.T p)
                   (binary64.command_sat_prev p) [binary64.command_sat p'].
Proof.
  intros Hdiv. unfold binary64.Step. b64_fields. rewrite Hdiv. cbv zeta.
  unfold binary64.rate_limit, binary64.saturate.
  repeat match goal with
         | |- context [if ?b then _ else _] =>
             let E := fresh "E" in destruct b eqn:E; b64_fields
         end;
    cbn [binary64.held]; b64_fields; tauto.
Qed.

Lemma outputs_held (calls : list binary64.call) : forall p : binary64.PID,
  PrimFloat.eqb (binary64.T p + binary64.T_C p) 0 = false ->
  length (binary64.outputs p calls) = binary64.steps calls
  /\ binary64.held (binary64.max_rate p) (binary64.T p)
                   (binary64.command_sat_prev p) (binary64.outputs p calls).
Proof.
  induction calls as [|c calls IH]; intros p Hdiv.
  - cbn. auto.
  - destruct c as [m sp|kp ki kd]; cbn [binary64.outputs binary64.steps].
    + destruct (Step_binary64 p m sp Hdiv)
        as (Hret & Hprev & HT & HTC & Hrate & Hheld).
      destruct (binary64.Step p m sp) as [p' r]. cbn [fst snd] in *. subst r.
      pose proof (IH p') as IH'. rewrite HT, HTC, Hrate, Hprev in IH'.
      destruct (IH' Hdiv) as [Hlen Hrest].
      cbn [length binary64.held] in *. split; [congruence|tauto].
    + apply (IH (binary64.set_Kd kd (binary64.set_Ki ki (binary64.set_Kp kp p)))).
      exact Hdiv.
Qed.

(** C3, amended. In binary64, every [Step] call of a sequence stores a
    saturated command that the rate limiter holds to the one before it (the
    first to the previous saturated command the controller starts from, 0
    for a new controller): it is the rounded sum of the previous command
    and [max_rate * T], or the rounded difference, or neither above the one
    nor below the other.  In exact arithmetic, with [max_rate >= 0],
    [T > 0] and [T_C > 0], this is the bound [max_rate * T] on the
    difference of consecutive commands. *)
Theorem Step_rate_limited_up_to_rounding
    (p : binary64.PID) (calls : list binary64.call)
    (q : PID) (qcalls : list call) :
  PrimFloat.eqb (binary64.T p + binary64.T_C p) 0 = false ->
  0 <= max_rate q -> 0 < T q -> 0 < T_C q ->
  (length (binary64.outputs p calls) = binary64.steps calls
   /\ binary64.held (binary64.max_rate p) (binary64.T p)
                    (binary64.command_sat_prev p) (binary64.outputs p calls)
   /\ (forall kp ki kd kaw tc t mx mn r,
         p = binary64.init kp ki kd kaw tc t mx mn r ->
         binary64.held r t 0%float (binary64.outputs p calls)))
  /\ (length (outputs q qcalls) = steps qcalls
      /\ slew_bounded (max_rate q * T q) (command_sat_prev q) (outputs q qcalls)
      /\ (forall kp ki kd kaw tc t mx mn r,
            q = init kp ki kd kaw tc t mx mn r ->
            slew_bounded (r * t) 0 (outputs q qcalls))).
Proof.
  intros Hdiv Hr Ht Hc. split.
  - destruct (outputs_held calls p Hdiv) as [Hlen Hheld].
    repeat split; auto.
    intros kp ki kd kaw tc t mx mn r ->. exact Hheld.
  - destruct (outputs_invariant qcalls q) as (Hlen & Hs & _).
    + apply positive_period; assumption.
    + apply Qmult_le_0_compat; lra.
    + repeat split; auto.
      intros kp ki kd kaw tc t mx mn r ->. exact Hs.
Qed.

Lemma Step_rate_limited_up_to_rounding_witness :
  (length (binary64.outputs binary64.scenario
             [binary64.CallStep 40 50; binary64.CallStep 40 50;
              binary64.CallStep 40 50])
   = binary64.steps [binary64.CallStep 40 50; binary64.CallStep 40 50;
                     binary64.CallStep 40 50]
   /\ binary64.held (binary64.max_rate binary64.scenario)
                    (binary64.T binary64.scenario)
                    (binary64.command_sat_prev binary64.scenario)
                    (binary64.outputs binary64.scenario
                       [binary64.CallStep 40 50; binary64.CallStep 40 50;
                        binary64.CallStep 40 50])
   /\ (forall kp ki kd kaw tc t mx mn r,
         binary64.scenario = binary64.init kp ki kd kaw tc t mx mn r ->
         binary64.held r t 0%float
           (binary64.outputs binary64.scenario
              [binary64.CallStep 40 50; binary64.CallStep 40 50;
               binary64.CallStep 40 50])))
  /\ (length (outputs scenario [CallStep 40 50; CallStep 40 50; CallStep 60 50])
      = steps [CallStep 40 50; CallStep 40 50; CallStep 60 50]
      /\ slew_bounded (max_rate scenario * T scenario) (command_sat_prev scenario)
           (outputs scenario [CallStep 40 50; CallStep 40 50; CallStep 60 50])
      /\ (forall kp ki kd kaw tc t mx mn r,
            scenario = init kp ki kd kaw tc t mx mn r ->
            slew_bounded (r * t) 0
              (outputs scenario [CallStep 40 50; CallStep 40 50; CallStep 60 50]))).
Proof.
  apply (Step_rate_limited_up_to_rounding binary64.scenario _ scenario).
  - reflexivity.
  - cbn; lra.
  - cbn; lra.
  - cbn; lra.
Defined.

(** C3 as stated fails in binary64: on the third call of the two-tick
    scenario the stored command goes from 0.1 to 0.15000000000000002, and
    the difference of these two numbers is greater than the product of
    [max_rate] = 0.5 and [T] = 0.1 (the floats nearest to 0.1). *)
Lemma Step_rate_exceeded_in_binary64 :
  exists o1 o2 o3 : float,
    binary64.outputs binary64.scenario
      [binary64.CallStep 40 50; binary64.CallStep 40 50; binary64.CallStep 40 50]
    = [o1; o2; o3]
    /\ o2 = 0.1%float /\ o3 = 0.15000000000000002%float
    /\ binary64.gtb (o3 - o2)
         (binary64.max_rate binary64.scenario * binary64.T binary64.scenario)
       = true
    /\ ~ (Qabs (binary64.exact o3 - binary64.exact o2)
          <= binary64.exact (binary64.max_rate binary64.scenario)
             * binary64.exact (binary64.T binary64.scenario)).
Proof.
  eexists. eexists. eexists.
  split; [vm_compute; reflexivity|].
  split; [reflexivity|]. split; [reflexivity|].
  split; [vm_compute; reflexivity|].
  intros H. vm_compute in H. apply H. reflexivity.
Qed.

End Binary64Facts.

(* ------------------------------------------------------------------ *)
(** ** The temperature history handed to the optimizer *)

Section HistoryFacts.
#[local] Set Warnings "-inexact-float".
Import retuning.

Lemma append_error64_lastn (h : list float) (e : float) :
  (length h <= 50)%nat ->
  binary64.append_error h e = lastn 50 (h ++ [e])
  /\ (length (binary64.append_error h e) <= 50)%nat.
Proof.
  intros Hh. unfold binary64.append_error, lastn.
  destruct (Nat.ltb_spec 50 (length (h ++ [e]))) as [Hlt|Hge].
  - rewrite length_app in *. cbn [length] in *.
    replace (length h + 1 - 50)%nat with 1%nat by lia.
    destruct h as [|a h]; cbn [length] in *; [lia|].
    cbn [app tl skipn]. rewrite length_app. cbn [length]. split; [reflexivity|lia].
  - replace (length (h ++ [e]) - 50)%nat with 0%nat by lia.
    split; [reflexivity|exact Hge].
Qed.

Lemma fold_append_error64 (errors : list float) : forall h : list float,
  (length h <= 50)%nat ->
  fold_left binary64.append_error errors h = lastn 50 (h ++ errors)
  /\ (length (fold_left binary64.append_error errors h) <= 50)%nat.
Proof.
  induction errors as [|e errors IH]; intros h Hh; cbn [fold_left].
  - rewrite app_nil_r. unfold lastn.
    replace (length h - 50)%nat with 0%nat by lia. auto.
  - destruct (append_error64_lastn h e Hh) as [E Hlen].
    destruct (IH (binary64.append_error h e) Hlen) as [IH1 IH2].
    split; [|exact IH2].
    rewrite IH1, E, lastn_app_lastn, <- app_assoc. reflexivity.
Qed.

Lemma history64 (temps : list float) :
  binary64.history_of_measurements temps
  = lastn 50 (map binary64.error_of temps)
  /\ (length (binary64.history_of_measurements temps) <= 50)%nat.
Proof.
  unfold binary64.history_of_measurements.
  assert (E : forall h,
             fold_left (fun h temp => binary64.append_error h (binary64.error_of temp))
                       temps h
             = fold_left binary64.append_error (map binary64.error_of temps) h).
  { induction temps as [|t temps IH]; intros h; cbn [fold_left map];
      [reflexivity|apply IH]. }
  rewrite E. apply (fold_append_error64 _ []). cbn. lia.
Qed.

(** The history a run of [learn] leaves: one error per pass that ran,
    the pass that raised included. *)
Lemma learn_history (minimize : gains -> minimizer) (inp : TickInput) (s : State) :
  error_history (fst (learn minimize inp s))
  = append_error (error_history s) (target_temp - current_temp inp).
Proof.
  unfold learn. cbv zeta. rewrite record_and_retune_cases. cbv zeta.
  destruct (optimization_due _ _); [|reflexivity].
  destruct (optimize_result _ _ _) as [p [x|e]]; reflexivity.
Qed.

Lemma learns_history (minimize : gains -> minimizer) (inputs : list TickInput) :
  forall s : State,
    exists n : nat,
      (n <= length inputs)%nat
      /\ (snd (learns minimize inputs s) = Ok tt -> n = length inputs)
      /\ error_history (fst (learns minimize inputs s))
         = fold_left (fun h temp => append_error h (target_temp - temp))
                     (map current_temp (firstn n inputs)) (error_history s).
Proof.
  induction inputs as [|inp rest IH]; intros s.
  - exists 0%nat. cbn. auto.
  - cbn [learns]. pose proof (learn_history minimize inp s) as Hh.
    destruct (learn minimize inp s) as [s' [[]|e]]; cbn [fst snd] in *.
    + destruct (IH s') as (n & Hn & Hok & Hhist).
      exists (S n). cbn [length firstn map fold_left].
      split; [lia|]. split; [intros H; rewrite (Hok H); reflexivity|].
      rewrite Hhist, Hh. reflexivity.
    + exists 1%nat. cbn [length firstn map fold_left].
      split; [lia|]. split; [discriminate|]. exact Hh.
Qed.

(** C10, amended. Each pass stores [target_temp - current_temp], and what
    [optimize_pid] is called with is the list, for the last (at most 50)
    passes in order, of [target_temp - (target_temp - temp)] as the program
    computes it.  In binary64 that is the value of two rounded
    subtractions; in exact arithmetic it is the measured temperature. *)
Theorem history_reconstruction (temps : list float)
    (minimize : gains -> minimizer) (inputs : list TickInput) (s : State) :
  error_history s = [] ->
  (binary64.reconstruct (binary64.history_of_measurements temps)
   = map (fun temp => (binary64.target_temp
                       - (binary64.target_temp - temp))%float)
         (lastn 50 temps)
   /\ (length (binary64.history_of_measurements temps) <= 50)%nat)
  /\ (forall inp,
        tick_body minimize inp
        = (actuate (current_temp inp) ;;;
           modify (emit INFO "Time, Temp, Setpoint, Command, Voltage, Kp, Ki, Kd, Error") ;;;
           learn minimize inp ;;;
           if interrupted inp then raise KeyboardInterrupt else ret tt))
  /\ (exists n : nat,
        (n <= length inputs)%nat
        /\ (snd (learns minimize inputs s) = Ok tt -> n = length inputs)
        /\ error_history (fst (learns minimize inputs s))
           = history_of_measurements (map current_temp (firstn n inputs))
        /\ Forall2 Qeq
             (reconstruct (error_history (fst (learns minimize inputs s))))
             (lastn 50 (map current_temp (firstn n inputs))))
  /\ (forall s' inp,
        let h := append_error (error_history s')
                              (target_temp - current_temp inp) in
        optimization_due h (elapsed_time inp) = true ->
        learn minimize inp s'
        = (x <- optimize_pid minimize (coefficients s') (reconstruct h) target_temp ;;
           modify (set_coefficients x) ;;;
           modify (fun s => set_pid (assign_gains (coefficients s) (pid s)) s))
            (set_error_history h s')).
Proof.
  intros Hempty. split; [|split; [|split]].
  - destruct (history64 temps) as [E Hlen]. split; [|exact Hlen].
    rewrite E, lastn_map. unfold binary64.reconstruct.
    rewrite map_map. reflexivity.
  - intros inp. reflexivity.
  - destruct (learns_history minimize inputs s) as (n & Hn & Hok & Hhist).
    rewrite Hempty in Hhist. exists n.
    split; [exact Hn|]. split; [exact Hok|]. split; [exact Hhist|].
    rewrite Hhist, fold_left_measurements.
    destruct (fold_append_error
                (map (fun temp => target_temp - temp)
                     (map current_temp (firstn n inputs))) [])
      as [Heq _]; [cbn; lia|].
    cbn [app] in Heq. rewrite Heq, lastn_map. apply reconstruct_errors.
  - intros s' inp h Hdue. subst h. unfold learn. cbv zeta.
    unfold record_and_retune at 1, bind at 1, modify at 1.
    cbn [error_history set_error_history]. rewrite Hdue. reflexivity.
Qed.

Lemma history_reconstruction_witness :
  (binary64.reconstruct (binary64.history_of_measurements [0.1; 17.3; 30]%float)
   = map (fun temp => (binary64.target_temp
                       - (binary64.target_temp - temp))%float)
         (lastn 50 [0.1; 17.3; 30]%float)
   /\ (length (binary64.history_of_measurements [0.1; 17.3; 30]%float) <= 50)%nat)
  /\ (forall inp,
        tick_body probing inp
        = (actuate (current_temp inp) ;;;
           modify (emit INFO "Time, Temp, Setpoint, Command, Voltage, Kp, Ki, Kd, Error") ;;;
           learn probing inp ;;;
           if interrupted inp then raise KeyboardInterrupt else ret tt))
  /\ (exists n : nat,
        (n <= length [mkTickInput 0 40 false; mkTickInput 1 45 false])%nat
        /\ (snd (learns probing [mkTickInput 0 40 false; mkTickInput 1 45 false] start)
            = Ok tt ->
            n = length [mkTickInput 0 40 false; mkTickInput 1 45 false])
        /\ error_history
             (fst (learns probing [mkTickInput 0 40 false; mkTickInput 1 45 false] start))
           = history_of_measurements
               (map current_temp
                    (firstn n [mkTickInput 0 40 false; mkTickInput 1 45 false]))
        /\ Forall2 Qeq
             (reconstruct
                (error_history
                   (fst (learns probing
                           [mkTickInput 0 40 false; mkTickInput 1 45 false] start))))
             (lastn 50
                (map current_temp
                     (firstn n [mkTickInput 0 40 false; mkTickInput 1 45 false]))))
  /\ (forall s' inp,
        let h := append_error (error_history s')
                              (target_temp - current_temp inp) in
        optimization_due h (elapsed_time inp) = true ->
        learn probing inp s'
        = (x <- optimize_pid probing (coefficients s') (reconstruct h) target_temp ;;
           modify (set_coefficients x) ;;;
           modify (fun s => set_pid (assign_gains (coefficients s) (pid s)) s))
            (set_error_history h s')).
Proof.
  apply (history_reconstruction [0.1; 17.3; 30]%float probing
           [mkTickInput 0 40 false; mkTickInput 1 45 false] start).
  reflexivity.
Defined.

(** C10 as stated fails in binary64: a pass that measures 0.1 stores the
    error 49.9, from which line 141 rebuilds 0.10000000000000142; a
    measurement of 17.3 comes back as 17.299999999999997. *)
Lemma history_not_recovered_in_binary64 :
  binary64.reconstruct (binary64.history_of_measurements [0.1; 17.3; 30]%float)
  = [0.10000000000000142; 17.299999999999997; 30]%float
  /\ PrimFloat.eqb 0.10000000000000142%float 0.1%float = false
  /\ PrimFloat.eqb 17.299999999999997%float 17.3%float = false
  /\ ~ (binary64.exact 0.10000000000000142%float == binary64.exact 0.1%float)
  /\ binary64.reconstruct (binary64.history_of_measurements [0.1; 17.3; 30]%float)
     <> [0.1; 17.3; 30]%float.
Proof.
  split; [vm_compute; reflexivity|].
  split; [vm_compute; reflexivity|].
  split; [vm_compute; reflexivity|].
  split.
  - intros H. vm_compute in H. discriminate H.
  - intros H.
    pose proof (f_equal (fun l => match l with
                                  | x :: _ => PrimFloat.eqb x 0.1%float
                                  | [] => true
                                  end) H) as E.
    vm_compute in E. discriminate E.
Qed.

End HistoryFacts.
